(** * WMATA bus pipeline: the upsert writer, the column explode, the fetch
      and the extraction stamp

    A shallow embedding of the functions of [ProyectoFinal.py] (the same
    functions are repeated in [1-CapaBronze.py] and [2-CapaSilver.py]):
    [get_data], [build_table], [build_table_incremental],
    [save_data_as_delta], [save_new_data_as_delta] and [explode_columns],
    and the statements of the script that fetch the stops.

    The functions are glue over three libraries, so each library call is
    given the part of its documented behaviour the functions rely on:
    requests ([get], [raise_for_status], [json]), pandas (column
    selection, [copy], [apply]/[all], [explode], column assignment) and
    deltalake ([DeltaTable], [merge] with [when_not_matched_insert_all],
    [write_deltalake]). *)

From Stdlib Require Import QArith.Qcanon.
From stdpp Require Import gmap strings list fin_maps pretty.

Open Scope string_scope.

#[local] Set Warnings "-register-all".

(** ** Python values *)

(** The objects that travel through the pipeline: what [response.json()]
    produces, what a data frame cell holds, what the clock returns. *)
Inductive Value : Type :=
  | VNone                                   (* None, JSON null *)
  | VNaN                                    (* numpy.nan, the missing cell *)
  | VBool (b : bool)
  | VInt (z : Z)
  | VFloat (q : Qc)
  | VStr (s : string)
  | VDate (year month day : nat)            (* datetime.date *)
  | VList (items : list Value)
  | VDict (entries : list (string * Value)). (* insertion-ordered dict *)

#[global] Instance Value_inhabited : Inhabited Value := populate VNaN.

(** [isinstance(x, list)] *)
Definition isinstance_list (x : Value) : bool :=
  match x with VList _ => true | _ => false end.

(** A cell that Arrow stores as NULL. *)
Definition is_null (x : Value) : bool :=
  match x with VNone | VNaN => true | _ => false end.

(** Structural equality of two values, by recursion through lists and
    dicts. *)
Fixpoint value_eqb (a b : Value) {struct a} : bool :=
  match a, b with
  | VNone, VNone => true
  | VNaN, VNaN => true
  | VBool x, VBool y => bool_decide (x = y)
  | VInt x, VInt y => bool_decide (x = y)
  | VFloat x, VFloat y => bool_decide (x = y)
  | VStr x, VStr y => bool_decide (x = y)
  | VDate y1 m1 d1, VDate y2 m2 d2 =>
      bool_decide (y1 = y2) && bool_decide (m1 = m2) && bool_decide (d1 = d2)
  | VList xs, VList ys =>
      (fix go (xs ys : list Value) {struct xs} : bool :=
         match xs, ys with
         | [], [] => true
         | x :: xs', y :: ys' => value_eqb x y && go xs' ys'
         | _, _ => false
         end) xs ys
  | VDict xs, VDict ys =>
      (fix go (xs ys : list (string * Value)) {struct xs} : bool :=
         match xs, ys with
         | [], [] => true
         | (k, x) :: xs', (k', y) :: ys' =>
             bool_decide (k = k') && value_eqb x y && go xs' ys'
         | _, _ => false
         end) xs ys
  | _, _ => false
  end.

(** ** Python exceptions *)

(** The exception classes the functions name in an [except] clause, and the
    ones the library calls raise.  [RequestException] stands for the base
    class of requests and every subclass of it ([HTTPError],
    [ConnectionError], [Timeout], ...); [kind] is the class name. *)
Inductive PyExc : Type :=
  | KeyError (key : string)
  | TypeError (msg : string)
  | ValueError (msg : string)
  | OSError (msg : string)
  | JSONDecodeError (msg : string)
  | RequestException (kind msg : string)
  | RuntimeError (msg : string)
  | TableNotFoundError (msg : string)
  | DeltaError (msg : string).

(** [str(e)], as the f-strings of the diagnostics print it. *)
Definition str_exc (e : PyExc) : string :=
  match e with
  | KeyError key => "'" ++ key ++ "'"
  | TypeError msg | ValueError msg | OSError msg | JSONDecodeError msg
  | RequestException _ msg | RuntimeError msg | TableNotFoundError msg
  | DeltaError msg => msg
  end.

(** [isinstance(e, requests.exceptions.RequestException)] *)
Definition is_RequestException (e : PyExc) : bool :=
  match e with RequestException _ _ => true | _ => false end.

(** [isinstance(e, KeyError)] *)
Definition is_KeyError (e : PyExc) : bool :=
  match e with KeyError _ => true | _ => false end.

(** [isinstance(e, deltalake.exceptions.TableNotFoundError)] *)
Definition is_TableNotFoundError (e : PyExc) : bool :=
  match e with TableNotFoundError _ => true | _ => false end.

(** ** Computations that read and write a state and may raise *)

(** A Python statement sequence over a state [S]: it ends with a value or
    with a raised exception, and leaves a state behind in both cases. *)
Definition Py (S A : Type) : Type := S → (PyExc + A) * S.

Definition ret {S A} (a : A) : Py S A := λ s, (inr a, s).

Definition raise {S A} (e : PyExc) : Py S A := λ s, (inl e, s).

Definition bind {S A B} (c : Py S A) (k : A → Py S B) : Py S B :=
  λ s, match c s with
       | (inr a, s') => k a s'
       | (inl e, s') => (inl e, s')
       end.

(** [try: c  except E1: h1  except E2: h2 ...]: the first clause whose class
    test accepts the exception handles it; an exception no clause accepts
    goes on to the caller. *)
Definition Clause (S A : Type) : Type := (PyExc → bool) * (PyExc → Py S A).

Fixpoint handle {S A} (clauses : list (Clause S A)) (e : PyExc) : Py S A :=
  match clauses with
  | [] => raise e
  | (catches, h) :: rest => if catches e then h e else handle rest e
  end.

Definition try_except {S A} (c : Py S A) (clauses : list (Clause S A))
    : Py S A :=
  λ s, match c s with
       | (inl e, s') => handle clauses e s'
       | r => r
       end.

(** [for x in l: acc = body(acc, x)] *)
Fixpoint for_each {S A B} (l : list A) (acc : B) (body : B → A → Py S B)
    : Py S B :=
  match l with
  | [] => ret acc
  | x :: l' => bind (body acc x) (λ acc', for_each l' acc' body)
  end.

(** Lifts the outcome of a call that has no effect on the state. *)
Definition lift {S A} (r : PyExc + A) : Py S A := λ s, (r, s).

Declare Scope py_scope.
Delimit Scope py_scope with py.
Notation "x <- c ;; k" := (bind c (λ x, k))
  (at level 100, c at next level, right associativity) : py_scope.
Notation "c ;;; k" := (bind c (λ _, k))
  (at level 100, right associativity) : py_scope.

(** ** Data frames *)

(** A row maps a column label to its cell; a label with no entry reads as
    the missing value. *)
Abbreviation Row := (gmap string Value).

Definition cell (r : Row) (col : string) : Value := default VNaN (r !! col).

(** A pandas [DataFrame]: its column labels in order, and its rows in
    order.  The row labels (the index) are left out: no function of the
    pipeline reads them (Arrow stores an index that is not the default
    range as one more field, [__index_level_0__], which is left out with
    it).  Columns that share a label share their cells, which is what a
    selection [df[cols]] with a repeated name builds. *)
Record DataFrame : Type := mkDataFrame {
  columns : list string;
  rows : list Row
}.

(** *** pandas operations on frame values *)

(** The cells of a row under the labels [cols] only. *)
Definition restrict (cols : list string) (r : Row) : Row :=
  filter (λ kv : string * Value, kv.1 ∈ cols) r.

(** [df[cols]] with a list of labels: a new frame with, for every label of
    [cols] in turn, the columns of [df] that carry it; [KeyError] when a
    label has none. *)
Definition getitem_columns (df : DataFrame) (cols : list string)
    : PyExc + DataFrame :=
  match filter (λ c, c ∉ columns df) cols with
  | [] =>
      inr {| columns := cols ≫= (λ c, filter (λ c', c' = c) (columns df));
             rows := restrict cols <$> rows df |}
  | missing => inl (KeyError (String.concat ", " missing ++ " not in index"))
  end.

(** What [df[col]] with one label returns: a [Series] when one column
    carries the label, a frame of the columns that carry it otherwise. *)
Inductive Selection : Type :=
  | Series (cells : list Value)
  | SubFrame (df : DataFrame).

Definition getitem_label (df : DataFrame) (col : string)
    : PyExc + Selection :=
  match filter (λ c', c' = col) (columns df) with
  | [] => inl (KeyError col)
  | [_] => inr (Series ((λ r, cell r col) <$> rows df))
  | same => inr (SubFrame {| columns := same; rows := restrict [col] <$> rows df |})
  end.

(** [sel.apply(lambda x: isinstance(x, list)).all()]: on a [Series] the
    lambda sees every cell; on a frame it sees every column as a whole,
    which is no list. *)
Definition apply_isinstance_list_all (sel : Selection) : bool :=
  match sel with
  | Series cells => forallb isinstance_list cells
  | SubFrame df => forallb (λ _, false) (columns df)
  end.

(** What one cell becomes under [explode]: the elements of a list, the
    missing value for an empty list, the cell itself when it is no list. *)
Definition explode_cell (x : Value) : list Value :=
  match x with
  | VList [] => [VNaN]
  | VList items => items
  | _ => [x]
  end.

(** The rows one row becomes: one per element, in element order, each the
    row itself with the element in place of the list. *)
Definition exploded_rows (column : string) (r : Row) : list Row :=
  (λ x, <[column := x]> r) <$> explode_cell (cell r column).

(** [df.explode(column)]: a new frame in which every row is replaced, in
    place, by one row per element of its [column] cell; the other cells
    are repeated.  pandas refuses frames whose labels are not unique. *)
Definition DataFrame_explode (df : DataFrame) (column : string)
    : PyExc + DataFrame :=
  if bool_decide (NoDup (columns df)) then
    if bool_decide (column ∈ columns df) then
      inr {| columns := columns df;
             rows := rows df ≫= exploded_rows column |}
    else inl (KeyError column)
  else inl (ValueError "DataFrame columns must be unique").

(** [df[name] = value] with a scalar: every row gets the value under
    [name]; the label is added last when the frame does not have it. *)
Definition setitem_scalar (df : DataFrame) (name : string) (value : Value)
    : DataFrame :=
  {| columns := if bool_decide (name ∈ columns df) then columns df
                else columns df ++ [name];
     rows := (λ r, <[name := value]> r) <$> rows df |}.

(** *** pandas objects *)

(** Frames are objects: a variable holds the identity of a frame, and two
    variables may hold the same one.  The session keeps the frames by
    identity, and the lines printed so far. *)
Record Session : Type := mkSession {
  frames : gmap nat DataFrame;
  stdout : list string
}.

Definition print (line : string) : Py Session unit :=
  λ s, (inr tt, {| frames := frames s; stdout := stdout s ++ [line] |}).

(** A call that returns a new frame object. *)
Definition new_frame (df : DataFrame) : Py Session nat :=
  λ s, let id := fresh (dom (frames s)) in
       (inr id, {| frames := <[id := df]> (frames s); stdout := stdout s |}).

Definition deref (id : nat) : Py Session DataFrame :=
  λ s, match frames s !! id with
       | Some df => (inr df, s)
       | None => (inl (RuntimeError "no such object"), s)
       end.

Section Pandas.
Local Open Scope py_scope.

(** [obj[cols]] *)
Definition getitem (obj : nat) (cols : list string) : Py Session nat :=
  df <- deref obj ;;
  sub <- lift (getitem_columns df cols) ;;
  new_frame sub.

(** [obj.copy()] *)
Definition copy (obj : nat) : Py Session nat :=
  df <- deref obj ;;
  new_frame df.

(** [obj[col].apply(lambda x: isinstance(x, list)).all()] *)
Definition column_is_lists (obj : nat) (col : string) : Py Session bool :=
  df <- deref obj ;;
  sel <- lift (getitem_label df col) ;;
  ret (apply_isinstance_list_all sel).

(** [obj.explode(col)] *)
Definition explode (obj : nat) (col : string) : Py Session nat :=
  df <- deref obj ;;
  exploded <- lift (DataFrame_explode df col) ;;
  new_frame exploded.

(** ** [explode_columns] *)

Definition explode_warning (col_to_explode : string) : string :=
  "Advertencia: La columna " ++ col_to_explode
    ++ " no contiene listas. No se puede hacer explode.".

Definition explode_key_error (e : PyExc) : string :=
  "Algunas columnas no encontradas en el DataFrame: " ++ str_exc e.

Definition explode_other_error (e : PyExc) : string :=
  "Ha ocurrido un error: " ++ str_exc e.

(** The body of the [for] loop: [df_result] is the loop-carried
    variable. *)
Definition explode_step (df_result : nat) (col_to_explode : string)
    : Py Session nat :=
  is_lists <- column_is_lists df_result col_to_explode ;;
  if (is_lists : bool) then explode df_result col_to_explode
  else (print (explode_warning col_to_explode) ;;; ret df_result).

(** The statements under [try]. *)
Definition explode_body (df_origin : nat)
    (cols_to_select cols_to_explode : list string) : Py Session nat :=
  selected <- getitem df_origin cols_to_select ;;
  df_result <- copy selected ;;
  for_each cols_to_explode df_result explode_step.

(** The function returns the identity of the new frame, or [None]. *)
Definition explode_columns (df_origin : nat)
    (cols_to_select cols_to_explode : list string)
    : Py Session (option nat) :=
  try_except
    (df_result <- explode_body df_origin cols_to_select cols_to_explode ;;
     ret (Some df_result))
    [ (is_KeyError, λ e, print (explode_key_error e) ;;; ret None);
      ((λ _, true), λ e, print (explode_other_error e) ;;; ret None) ].
End Pandas.

(** ** Arrow tables and SQL predicates *)

(** A [pyarrow.Table]: named columns, rows read by name. *)
Record ArrowTable : Type := mkArrowTable {
  column_names : list string;
  to_pylist : list Row
}.

(** [pa.Table.from_pandas(df)]: Arrow refuses repeated column names.  The
    fields are the columns of the frame; the field Arrow adds for a row
    index that is not the default range is not part of the table here. *)
Definition Table_from_pandas (df : DataFrame) : PyExc + ArrowTable :=
  if bool_decide (NoDup (columns df)) then
    inr {| column_names := columns df;
           to_pylist := restrict (columns df) <$> rows df |}
  else inl (ValueError "Duplicate column names found").

(** The merge predicate is SQL text, as in
    ['target.StopID = source.StopID AND target.Routes = source.Routes'].
    The embedding starts from its syntax tree: comparisons of qualified
    columns and literals, combined with AND, OR and NOT. *)
Inductive SqlTerm : Type :=
  | Column (relation name : string)
  | Literal (v : Value).

Inductive SqlExpr : Type :=
  | Equal (a b : SqlTerm)
  | And (p q : SqlExpr)
  | Or (p q : SqlExpr)
  | Not (p : SqlExpr).

(** Two values that are not NULL, compared: an integer and a float are
    compared as numbers, any other two values structurally. *)
Definition sql_same (a b : Value) : bool :=
  match a, b with
  | VInt x, VFloat q | VFloat q, VInt x => bool_decide (Q2Qc (QArith_base.inject_Z x) = q)
  | _, _ => value_eqb a b
  end.

(** The result of a SQL condition is TRUE, FALSE or NULL ([None]). *)
Definition sql_equal (a b : Value) : option bool :=
  if is_null a || is_null b then None else Some (sql_same a b).

Definition sql_and (x y : option bool) : option bool :=
  match x, y with
  | Some false, _ | _, Some false => Some false
  | Some true, Some true => Some true
  | _, _ => None
  end.

Definition sql_or (x y : option bool) : option bool :=
  match x, y with
  | Some true, _ | _, Some true => Some true
  | Some false, Some false => Some false
  | _, _ => None
  end.

Definition sql_not (x : option bool) : option bool := negb <$> x.

Section Predicate.
Variables source_alias target_alias : string.

Definition eval_term (source target : Row) (t : SqlTerm) : Value :=
  match t with
  | Column relation name =>
      if bool_decide (relation = target_alias) then cell target name
      else if bool_decide (relation = source_alias) then cell source name
      else VNone
  | Literal v => v
  end.

Fixpoint eval_predicate (source target : Row) (p : SqlExpr) : option bool :=
  match p with
  | Equal a b =>
      sql_equal (eval_term source target a) (eval_term source target b)
  | And p q =>
      sql_and (eval_predicate source target p) (eval_predicate source target q)
  | Or p q =>
      sql_or (eval_predicate source target p) (eval_predicate source target q)
  | Not p => sql_not (eval_predicate source target p)
  end.

(** Planning the predicate: every column must name one of the two
    relations and a field of its schema. *)
Definition term_resolves (source_columns target_columns : list string)
    (t : SqlTerm) : bool :=
  match t with
  | Column relation name =>
      if bool_decide (relation = target_alias)
      then bool_decide (name ∈ target_columns)
      else if bool_decide (relation = source_alias)
      then bool_decide (name ∈ source_columns)
      else false
  | Literal _ => true
  end.

Fixpoint predicate_resolves (source_columns target_columns : list string)
    (p : SqlExpr) : bool :=
  match p with
  | Equal a b =>
      term_resolves source_columns target_columns a
      && term_resolves source_columns target_columns b
  | And p q | Or p q =>
      predicate_resolves source_columns target_columns p
      && predicate_resolves source_columns target_columns q
  | Not p => predicate_resolves source_columns target_columns p
  end.
End Predicate.

(** ** The deltalake client *)

(** A [DeltaTable] object: the table it was opened on. *)
Record DeltaTableObj : Type := mkDeltaTableObj { table_uri : string }.

(** The [TableMerger] that [dt.merge(...)] builds and the [when_...]
    methods extend. *)
Record TableMerger : Type := mkTableMerger {
  merge_table : DeltaTableObj;
  merge_source : ArrowTable;
  merge_source_alias : string;
  merge_target_alias : string;
  merge_predicate : SqlExpr;
  not_matched_insert_all : bool
}.

(** [dt.merge(source=, source_alias=, target_alias=, predicate=)] *)
Definition merge (dt : DeltaTableObj) (source : ArrowTable)
    (source_alias target_alias : string) (predicate : SqlExpr) : TableMerger :=
  {| merge_table := dt; merge_source := source;
     merge_source_alias := source_alias; merge_target_alias := target_alias;
     merge_predicate := predicate; not_matched_insert_all := false |}.

(** [merger.when_not_matched_insert_all()] *)
Definition when_not_matched_insert_all (m : TableMerger) : TableMerger :=
  {| merge_table := merge_table m; merge_source := merge_source m;
     merge_source_alias := merge_source_alias m;
     merge_target_alias := merge_target_alias m;
     merge_predicate := merge_predicate m; not_matched_insert_all := true |}.

(** The calls into deltalake that touch storage, over a storage state [S]:
    the [DeltaTable(path)] constructor, [merger.execute()] and
    [write_deltalake(path, df, mode=, partition_by=)]. *)
Record DeltaLake (S : Type) : Type := mkDeltaLake {
  DeltaTable : string → Py S DeltaTableObj;
  execute : TableMerger → Py S unit;
  write_deltalake :
    string → DataFrame → string → option (list string) → Py S unit
}.
Arguments DeltaTable {S} _ _.
Arguments execute {S} _ _.
Arguments write_deltalake {S} _ _ _ _ _.

Section Writers.
Context {S : Type} (deltalake : DeltaLake S).
Local Open Scope py_scope.

(** ** [save_data_as_delta]

    An omitted [mode] is [None] here and stands for the default of the
    signature, ['overwrite']; an omitted [partition_cols] is [None] as in
    the source. *)
Definition save_data_as_delta (df : DataFrame) (path : string)
    (mode : option string) (partition_cols : option (list string))
    : Py S unit :=
  write_deltalake deltalake path df (default "overwrite" mode) partition_cols.

(** The statements under [try]. *)
Definition merge_new_data (new_data : DataFrame) (data_path : string)
    (predicate : SqlExpr) : Py S unit :=
  dt <- DeltaTable deltalake data_path ;;
  new_data_pa <- lift (Table_from_pandas new_data) ;;
  execute deltalake
    (when_not_matched_insert_all
       (merge dt new_data_pa "source" "target" predicate)).

(** ** [save_new_data_as_delta] *)
Definition save_new_data_as_delta (new_data : DataFrame) (data_path : string)
    (predicate : SqlExpr) (partition_cols : option (list string))
    : Py S unit :=
  try_except
    (merge_new_data new_data data_path predicate)
    [ (is_TableNotFoundError,
       λ _, save_data_as_delta new_data data_path None partition_cols) ].
End Writers.

(** ** Delta tables in memory *)

(** What is stored at a table location: the field names of the schema, the
    partition columns, and the rows.  A Delta table has no row order of
    its own; the list keeps the rows in the order they were written.  The
    types of the fields are not part of the record: cells are stored as
    they are given, where deltalake casts them to the type of the field
    and refuses what the type cannot hold. *)
Record DeltaTableData : Type := mkDeltaTableData {
  schema : list string;
  partition_columns : list string;
  data : list Row
}.

(** The storage: the table at each location that has one. *)
Abbreviation Lake := (gmap string DeltaTableData).

(** The same field names, in any order. *)
Definition same_fields (a b : list string) : bool :=
  forallb (λ c, bool_decide (c ∈ b)) a && forallb (λ c, bool_decide (c ∈ a)) b.

(** A source row is matched when the predicate is TRUE for it and some row
    of the target. *)
Definition matched (source_alias target_alias : string) (predicate : SqlExpr)
    (target_rows : list Row) (source_row : Row) : bool :=
  existsb (λ target_row,
      bool_decide (eval_predicate source_alias target_alias
                     source_row target_row predicate = Some true))
    target_rows.

(** The rows a merge inserts: the source rows that no target row matches,
    each one once, in source order.  The target is the table as it was
    before the merge. *)
Definition not_matched_rows (m : TableMerger) (target_rows : list Row)
    : list Row :=
  filter (λ source_row,
            matched (merge_source_alias m) (merge_target_alias m)
              (merge_predicate m) target_rows source_row = false)
    (to_pylist (merge_source m)).

Definition lake_DeltaTable (path : string) : Py Lake DeltaTableObj :=
  λ lake, match lake !! path with
          | Some _ => (inr {| table_uri := path |}, lake)
          | None => (inl (TableNotFoundError ("no log files: " ++ path)), lake)
          end.

(** The row that [when_not_matched_insert_all] stores for a source row:
    one cell for every field of the table, the source cell of that name,
    or NULL when the source has no such column.  A source column that is
    no field of the table is not stored. *)
Definition inserted_row (source_columns fields : list string) (r : Row) : Row :=
  list_to_map
    ((λ c, (c, if bool_decide (c ∈ source_columns) then cell r c else VNone))
       <$> fields).

(** [execute]: the predicate is planned against both schemas, and the
    unmatched source rows are added to the rows of the table, under the
    fields of the table.  A failed merge commits nothing. *)
Definition lake_execute (m : TableMerger) : Py Lake unit :=
  λ lake,
    let path := table_uri (merge_table m) in
    match lake !! path with
    | None => (inl (DeltaError ("not a table: " ++ path)), lake)
    | Some t =>
        if negb (predicate_resolves (merge_source_alias m) (merge_target_alias m)
                   (column_names (merge_source m)) (schema t) (merge_predicate m))
        then (inl (DeltaError "Schema error: No field named in predicate"), lake)
        else if not_matched_insert_all m then
          (inr tt,
           <[path := {| schema := schema t;
                        partition_columns := partition_columns t;
                        data := data t
                          ++ (inserted_row (column_names (merge_source m))
                                (schema t)
                              <$> not_matched_rows m (data t)) |}]> lake)
        else (inr tt, lake)
    end.

(** [write_deltalake]: creates the table, or, on a table that exists,
    replaces its rows (['overwrite']), adds to them (['append']), fails
    (['error']) or does nothing (['ignore']).  On a table that exists the
    fields of the frame are matched with those of the table by name, and
    the table keeps its own order of fields. *)
Definition lake_write_deltalake (path : string) (df : DataFrame) (mode : string)
    (partition_by : option (list string)) : Py Lake unit :=
  λ lake,
    match Table_from_pandas df with
    | inl e => (inl e, lake)
    | inr table =>
        let by_ := default [] partition_by in
        if negb (forallb (λ c, bool_decide (c ∈ column_names table)) by_)
        then (inl (DeltaError "partition column not in schema"), lake)
        else if negb (bool_decide (mode ∈ ["error"; "append"; "overwrite"; "ignore"]))
        then (inl (ValueError ("invalid mode: " ++ mode)), lake)
        else
          let created := {| schema := column_names table;
                            partition_columns := by_;
                            data := to_pylist table |} in
          match lake !! path with
          | None => (inr tt, <[path := created]> lake)
          | Some t =>
              if bool_decide (mode = "error")
              then (inl (DeltaError ("table already exists: " ++ path)), lake)
              else if bool_decide (mode = "ignore") then (inr tt, lake)
              else if negb (same_fields (column_names table) (schema t))
              then (inl (DeltaError "Schema of data does not match table schema"),
                    lake)
              else if negb (bool_decide (partition_by = None
                                         ∨ by_ = partition_columns t))
              then (inl (DeltaError "partition columns do not match the table"),
                    lake)
              else if bool_decide (mode = "append")
              then (inr tt,
                    <[path := {| schema := schema t;
                                 partition_columns := partition_columns t;
                                 data := data t ++ to_pylist table |}]> lake)
              else (inr tt,
                    <[path := {| schema := schema t;
                                 partition_columns := partition_columns t;
                                 data := to_pylist table |}]> lake)
          end
    end.

Definition lake_client : DeltaLake Lake :=
  {| DeltaTable := lake_DeltaTable;
     execute := lake_execute;
     write_deltalake := lake_write_deltalake |}.

(** The predicate ['target.k = source.k'] and the conjunction of several. *)
Definition key_equal (key : string) : SqlExpr :=
  Equal (Column "target" key) (Column "source" key).

Definition key_predicate (key : string) (more : list string) : SqlExpr :=
  foldl (λ p k, And p (key_equal k)) (key_equal key) more.

(** ** The HTTP client *)

(** A [requests.Response]: the status line, and the body as [json()] reads
    it, [None] when the body is not JSON. *)
Record Response : Type := mkResponse {
  status_code : Z;
  reason : string;
  body_json : option Value
}.

(** [response.raise_for_status()]: raises [HTTPError] for the client and
    server error codes, 400 to 599, and returns for every other code. *)
Definition raise_for_status (response : Response) : PyExc + unit :=
  if bool_decide (400 ≤ status_code response < 500)%Z then
    inl (RequestException "HTTPError"
           (pretty (status_code response) ++ " Client Error: " ++ reason response))
  else if bool_decide (500 ≤ status_code response < 600)%Z then
    inl (RequestException "HTTPError"
           (pretty (status_code response) ++ " Server Error: " ++ reason response))
  else inr tt.

(** [response.json()] *)
Definition Response_json (response : Response) : PyExc + Value :=
  match body_json response with
  | Some data => inr data
  | None => inl (JSONDecodeError "Expecting value")
  end.

(** The value under a key of a dict (the keys of a dict are distinct). *)
Fixpoint dict_get (entries : list (string * Value)) (key : string)
    : option Value :=
  match entries with
  | [] => None
  | (k, v) :: rest => if bool_decide (k = key) then Some v else dict_get rest key
  end.

(** [data[key]] with a string key. *)
Definition subscript (data : Value) (key : string) : PyExc + Value :=
  match data with
  | VDict entries =>
      match dict_get entries key with
      | Some v => inr v
      | None => inl (KeyError key)
      end
  | VList _ => inl (TypeError "list indices must be integers or slices, not str")
  | VStr _ => inl (TypeError "string indices must be integers")
  | _ => inl (TypeError "object is not subscriptable")
  end.

Section Fetch.
(** The network: what [requests.get(url, params=, headers=)] comes back
    with, a response or a raised exception. *)
Variable requests_get :
  string → option (list (string * string)) → option (list (string * string))
  → PyExc + Response.
Local Open Scope py_scope.

Definition unexpected_format : string :=
  "El formato de respuesta no es el esperado".

Definition request_failed (e : PyExc) : string :=
  "La petición ha fallado. Código de error : " ++ str_exc e.

(** ** [get_data]

    The result is a Python value; [VNone] is the [None] of the two
    [return None]. *)
Definition get_data (base_url endpoint data_field : string)
    (params headers : option (list (string * string))) : Py Session Value :=
  try_except
    (let endpoint_url := base_url ++ "/" ++ endpoint in
     response <- lift (requests_get endpoint_url params headers) ;;
     lift (raise_for_status response) ;;;
     try_except
       (data <- lift (Response_json response) ;;
        data <- lift (subscript data data_field) ;;
        ret data)
       [ ((λ _, true), λ _, print unexpected_format ;;; ret VNone) ])
    [ (is_RequestException, λ e, print (request_failed e) ;;; ret VNone) ].
End Fetch.

(** ** The clock and the extraction stamp *)

(** A [datetime.datetime]. *)
Record datetime : Type := mkDatetime {
  year : nat; month : nat; day : nat;
  hour : nat; minute : nat; second : nat; microsecond : nat
}.

(** The ranges [datetime] keeps its time fields in. *)
Definition valid_time (t : datetime) : Prop :=
  hour t < 24 ∧ minute t < 60 ∧ second t < 60.

(** [t.date()] *)
Definition datetime_date (t : datetime) : Value :=
  VDate (year t) (month t) (day t).

(** ['%02d' % n] *)
Definition pad2 (n : nat) : string :=
  let digits := pretty n in
  if bool_decide (String.length digits < 2) then "0" ++ digits else digits.

(** [t.strftime('%H:%M:%S')] *)
Definition strftime_HMS (t : datetime) : string :=
  pad2 (hour t) ++ ":" ++ pad2 (minute t) ++ ":" ++ pad2 (second t).

(** The system clock: the time each successive reading returns, and the
    number of readings taken so far. *)
Record Clock : Type := mkClock {
  readings : nat → datetime;
  reads : nat
}.

(** [datetime.now()] *)
Definition datetime_now : Py Clock datetime :=
  λ clock, (inr (readings clock (reads clock)),
            {| readings := readings clock; reads := S (reads clock) |}).

Section Stamp.
(** [pd.DataFrame(json_data)], the frame pandas builds from the records
    or the exception it raises. *)
Variable pd_DataFrame : Value → PyExc + DataFrame.
Local Open Scope py_scope.

(** ** [build_table_incremental] *)
Definition build_table_incremental (json_data : Value) : Py Clock DataFrame :=
  df <- lift (pd_DataFrame json_data) ;;
  fecha_hora <- datetime_now ;;
  let df := setitem_scalar df "fecha_consulta" (datetime_date fecha_hora) in
  let df := setitem_scalar df "hora_consulta" (VStr (strftime_HMS fecha_hora)) in
  ret df.
End Stamp.

(** Two decimal digits, a colon, two digits, a colon, two digits. *)
Definition is_digit (c : Ascii.ascii) : bool :=
  bool_decide (c ∈ String.list_ascii_of_string "0123456789").

Definition colon : Ascii.ascii := Ascii.ascii_of_nat 58.

Definition is_HH_MM_SS (s : string) : bool :=
  match String.list_ascii_of_string s with
  | [h1; h2; c1; m1; m2; c2; s1; s2] =>
      is_digit h1 && is_digit h2 && bool_decide (c1 = colon)
      && is_digit m1 && is_digit m2 && bool_decide (c2 = colon)
      && is_digit s1 && is_digit s2
  | _ => false
  end.

(** ** The frames [explode_columns] goes through

    The same loop on frame values, without the object identities: the
    warnings printed, and the frame reached or the exception raised.
    [explode_columns_computes] below proves that [explode_columns] returns
    an object that holds this frame. *)
Fixpoint explode_loop (df : DataFrame) (cols : list string)
    : list string * (PyExc + DataFrame) :=
  match cols with
  | [] => ([], inr df)
  | col :: rest =>
      match getitem_label df col with
      | inl e => ([], inl e)
      | inr sel =>
          if apply_isinstance_list_all sel then
            match DataFrame_explode df col with
            | inl e => ([], inl e)
            | inr df' => explode_loop df' rest
            end
          else (explode_warning col :: (explode_loop df rest).1,
                (explode_loop df rest).2)
      end
  end.

(** The line the [except] clauses print for an exception. *)
Definition explode_diagnostic (e : PyExc) : string :=
  if is_KeyError e then explode_key_error e else explode_other_error e.

Definition explode_outcome (df : DataFrame) (sel exp : list string)
    : list string * option DataFrame :=
  match getitem_columns df sel with
  | inl e => ([explode_diagnostic e], None)
  | inr df0 =>
      match (explode_loop df0 exp).2 with
      | inr df' => ((explode_loop df0 exp).1, Some df')
      | inl e => (((explode_loop df0 exp).1 ++ [explode_diagnostic e])%list, None)
      end
  end.

(** The call returns a frame object, and the object holds [result]. *)
Definition returns_frame (s : Session) (df_origin : nat)
    (cols_to_select cols_to_explode : list string) (result : DataFrame) : Prop :=
  ∃ id s', explode_columns df_origin cols_to_select cols_to_explode s
             = (inr (Some id), s')
           ∧ frames s' !! id = Some result.



(** ** [build_table] *)

Section Normalize.
(** [pd.json_normalize(json_data)], the frame pandas builds or the
    exception it raises. *)
Variable json_normalize : Value → PyExc + DataFrame.
Local Open Scope py_scope.

Definition unexpected_data : string :=
  "Los datos no están en el formato esperado".

(** The function returns the frame, or [None]. *)
Definition build_table (json_data : Value) : Py Session (option DataFrame) :=
  try_except
    (df <- lift (json_normalize json_data) ;;
     ret (Some df))
    [ ((λ _, true), λ _, print unexpected_data ;;; ret None) ].
End Normalize.

(** ** The full extraction

    The statements of the script that fetch the stops and build their
    frame: [json_paradas_bus = get_data(base_url, endpointFull,
    data_field='Stops', headers=headers)] and [dataFrameFull =
    build_table(json_paradas_bus)]. *)
Definition base_url : string := "http://api.wmata.com/Bus.svc/json".

Definition endpointFull : string := "jStops".

Section Extraction.
Variable requests_get :
  string → option (list (string * string)) → option (list (string * string))
  → PyExc + Response.
Variable json_normalize : Value → PyExc + DataFrame.
(** The key read from [pipeline.conf]. *)
Variable api_key : string.
Local Open Scope py_scope.

Definition headers : option (list (string * string)) :=
  Some [ ("api_key", api_key) ].

Definition extraccion_full : Py Session (option DataFrame) :=
  json_paradas_bus <- get_data requests_get base_url endpointFull "Stops"
                        None headers ;;
  build_table json_normalize json_paradas_bus.
End Extraction.

(** ** Stamps read back *)

(** The number a digit character stands for, and the three numbers of a
    stamp of eight characters. *)
Definition digit_value (c : Ascii.ascii) : nat := Ascii.nat_of_ascii c - 48.

Definition stamp_fields (s : string) : option (nat * nat * nat) :=
  match String.list_ascii_of_string s with
  | [h1; h2; _; m1; m2; _; s1; s2] =>
      Some (10 * digit_value h1 + digit_value h2,
            10 * digit_value m1 + digit_value m2,
            10 * digit_value s1 + digit_value s2)
  | _ => None
  end.

(** ** Sample data

    The stops feed in small: a stop with two routes, a stop with none. *)
Definition stop_row (id : Z) (name : string) (routes : Value) : Row :=
  {[ "StopID" := VInt id; "Name" := VStr name; "Routes" := routes ]}.

Definition sample_stops : DataFrame :=
  {| columns := ["StopID"; "Name"; "Routes"];
     rows := [ stop_row 1 "A" (VList [VStr "r1"; VStr "r2"]);
               stop_row 2 "B" (VList []) ] |}.

(** A stop whose routes never went through [ast.literal_eval]. *)
Definition sample_mixed : DataFrame :=
  {| columns := ["StopID"; "Name"; "Routes"];
     rows := [ stop_row 1 "A" (VList [VStr "r1"; VStr "r2"]);
               stop_row 2 "B" (VStr "['r3']") ] |}.

(** The routes frame of [sample_stops]: one row per stop and route. *)
Definition sample_routes : DataFrame :=
  {| columns := ["StopID"; "Routes"];
     rows := [ {[ "StopID" := VInt 1; "Routes" := VStr "r1" ]};
               {[ "StopID" := VInt 1; "Routes" := VStr "r2" ]};
               {[ "StopID" := VInt 2; "Routes" := VNaN ]} ] |}.


Definition session_of (df : DataFrame) : Session :=
  {| frames := {[ 0%nat := df ]}; stdout := [] |}.

Definition key_row (id : Value) (v : string) : Row :=
  {[ "id" := id; "v" := VStr v ]}.

(** A table that holds the row (id=1, v=A). *)
Definition lake_one : Lake :=
  {[ "silver/stops" :=
       {| schema := ["id"; "v"]; partition_columns := [];
          data := [ key_row (VInt 1) "A" ] |} ]}.

Definition batch (l : list Row) : DataFrame :=
  {| columns := ["id"; "v"]; rows := l |}.

Definition stops_feed : Value :=
  VDict [ ("Stops", VList [ VDict [ ("StopID", VStr "1000001") ] ]) ].

Definition respond (status : Z) (why : string) (body : option Value)
    (url : string) (params headers : option (list (string * string)))
    : PyExc + Response :=
  inr {| status_code := status; reason := why; body_json := body |}.

Definition morning : datetime :=
  {| year := 2024; month := 5; day := 17;
     hour := 9; minute := 5; second := 30; microsecond := 0 |}.

Definition wall_clock : Clock := {| readings := λ _, morning; reads := 0 |}.

Definition evening : datetime :=
  {| year := 2025; month := 12; day := 31;
     hour := 23; minute := 59; second := 7; microsecond := 125 |}.

(** A clock that was read once in the morning and is read next in the
    evening. *)
Definition ticking_clock : Clock :=
  {| readings := λ n, if Nat.eqb n 1 then evening else morning; reads := 1 |}.

Definition two_positions : Value :=
  VList [ VDict [ ("VehicleID", VInt 7) ]; VDict [ ("VehicleID", VInt 8) ] ].

(** A frame constructor for lists of records that all have the same
    keys: one row per record. *)
Definition records_frame (json_data : Value) : PyExc + DataFrame :=
  match json_data with
  | VList records =>
      inr {| columns := match records with
                        | VDict entries :: _ => entries.*1
                        | _ => []
                        end;
             rows := (λ record, match record with
                                | VDict entries => list_to_map entries
                                | _ => ∅
                                end) <$> records |}
  | _ => inl (ValueError "DataFrame constructor not properly called!")
  end.

(** Stops that all have a route, and their routes frame. *)
Definition routed_stops : DataFrame :=
  {| columns := ["StopID"; "Name"; "Routes"];
     rows := [ stop_row 1 "A" (VList [VStr "r1"; VStr "r2"]);
               stop_row 2 "B" (VList [VStr "r3"]) ] |}.

Definition routed_routes : DataFrame :=
  {| columns := ["StopID"; "Routes"];
     rows := [ {[ "StopID" := VInt 1; "Routes" := VStr "r1" ]};
               {[ "StopID" := VInt 1; "Routes" := VStr "r2" ]};
               {[ "StopID" := VInt 2; "Routes" := VStr "r3" ]} ] |}.

Definition no_stops : DataFrame :=
  {| columns := ["StopID"; "Name"; "Routes"]; rows := [] |}.

(** A request that ends with the exception [e]. *)
Definition fails_with (e : PyExc) (url : string)
    (params headers : option (list (string * string))) : PyExc + Response :=
  inl e.

(** A [json_normalize] for lists of records; like pandas it refuses
    [None] with [NotImplementedError], a [RuntimeError]. *)
Definition normalize_records (json_data : Value) : PyExc + DataFrame :=
  match json_data with
  | VList _ => records_frame json_data
  | _ => inl (RuntimeError "NotImplementedError")
  end.

(** A storage client whose tables vanish between the opening and the
    merge: the constructor succeeds, [execute] raises
    [TableNotFoundError]. *)
Definition vanishing_client : DeltaLake Lake :=
  {| DeltaTable := λ path lake, (inr {| table_uri := path |}, lake);
     execute := λ m lake,
       (inl (TableNotFoundError (table_uri (merge_table m))), lake);
     write_deltalake := lake_write_deltalake |}.

(** * Properties *)

Local Open Scope list_scope.

(** ** Running computations *)

Lemma bind_inr {S A B} (c : Py S A) (k : A → Py S B) s a s' :
  c s = (inr a, s') → bind c k s = k a s'.
Proof. intros H. unfold bind. by rewrite H. Qed.

Lemma bind_inl {S A B} (c : Py S A) (k : A → Py S B) s e s' :
  c s = (inl e, s') → bind c k s = (inl e, s').
Proof. intros H. unfold bind. by rewrite H. Qed.

Lemma try_except_inr {S A} (c : Py S A) clauses s a s' :
  c s = (inr a, s') → try_except c clauses s = (inr a, s').
Proof. intros H. unfold try_except. by rewrite H. Qed.

Lemma try_except_inl {S A} (c : Py S A) clauses s e s' :
  c s = (inl e, s') → try_except c clauses s = handle clauses e s'.
Proof. intros H. unfold try_except. by rewrite H. Qed.

(** ** Frames and rows *)

Lemma cell_restrict cols r c : c ∈ cols → cell (restrict cols r) c = cell r c.
Proof.
  intros Hc. unfold cell, restrict. f_equal.
  destruct (r !! c) as [v|] eqn:E.
  - apply map_lookup_filter_Some. done.
  - apply map_lookup_filter_None. left. done.
Qed.

Lemma cell_insert_ne (r : Row) c c' x : c ≠ c' → cell (<[c' := x]> r) c = cell r c.
Proof. intros. unfold cell. by rewrite lookup_insert_ne. Qed.

Lemma cell_insert_eq (r : Row) c x : cell (<[c := x]> r) c = x.
Proof. unfold cell. by rewrite lookup_insert_eq. Qed.

Lemma filter_eq_NoDup (c : string) (l : list string) :
  NoDup l → c ∈ l → filter (λ c', c' = c) l = [c].
Proof.
  induction 1 as [|x l Hx Hl IH]; intros Hc; [by apply elem_of_nil in Hc|].
  rewrite filter_cons. case_decide as E.
  - subst x. f_equal. clear IH Hc.
    induction l as [|y l IH]; [done|].
    rewrite filter_cons. case_decide.
    + subst. exfalso. apply Hx. left.
    + apply IH. { intros ?. apply Hx. by right. } by inversion Hl.
  - apply IH. apply elem_of_cons in Hc as [->|]; done.
Qed.

Lemma filter_eq_not_in (c : string) (l : list string) :
  c ∉ l → filter (λ c', c' = c) l = [].
Proof.
  induction l as [|y l IH]; [done|]; intros Hc.
  rewrite filter_cons. case_decide.
  - subst. exfalso. apply Hc. left.
  - apply IH. intros ?. apply Hc. by right.
Qed.

Lemma explode_cell_nonempty x : explode_cell x ≠ [].
Proof. destruct x as [| | | | | | |[|]|]; done. Qed.

(** ** Frame objects *)

Lemma new_frame_fresh df s :
  ∃ id, new_frame df s
        = (inr id, {| frames := <[id := df]> (frames s); stdout := stdout s |})
      ∧ frames s !! id = None.
Proof.
  exists (fresh (dom (frames s))). split; [done|].
  apply not_elem_of_dom, is_fresh.
Qed.

Lemma explode_step_computes s id df col :
  frames s !! id = Some df →
  match getitem_label df col with
  | inl e => explode_step id col s = (inl e, s)
  | inr sel =>
      if apply_isinstance_list_all sel then
        match DataFrame_explode df col with
        | inl e => explode_step id col s = (inl e, s)
        | inr df' =>
            ∃ id', explode_step id col s
                   = (inr id', {| frames := <[id' := df']> (frames s);
                                  stdout := stdout s |})
                 ∧ frames s !! id' = None
        end
      else explode_step id col s
           = (inr id, {| frames := frames s;
                         stdout := stdout s ++ [explode_warning col] |})
  end.
Proof.
  intros Hid.
  unfold explode_step, column_is_lists, explode, bind, deref, lift, ret.
  rewrite Hid. destruct (getitem_label df col) as [e|sel]; [done|].
  destruct (apply_isinstance_list_all sel); [|done].
  rewrite Hid. destruct (DataFrame_explode df col) as [e|df']; [done|].
  apply new_frame_fresh.
Qed.

Lemma for_each_explode_computes cols : ∀ s id df,
  frames s !! id = Some df →
  ∃ s', frames s ⊆ frames s'
      ∧ stdout s' = stdout s ++ (explode_loop df cols).1
      ∧ match (explode_loop df cols).2 with
        | inr df' =>
            ∃ id', for_each cols id explode_step s = (inr id', s')
                 ∧ frames s' !! id' = Some df'
                 ∧ (id' = id ∨ frames s !! id' = None)
        | inl e => for_each cols id explode_step s = (inl e, s')
        end.
Proof.
  induction cols as [|col rest IH]; intros s id df Hid; simpl.
  { exists s. split; [done|]. split; [by rewrite app_nil_r|].
    exists id. auto. }
  pose proof (explode_step_computes s id df col Hid) as Hstep.
  destruct (getitem_label df col) as [e|sel]; simpl.
  { exists s. split; [done|]. split; [by rewrite app_nil_r|].
    by rewrite (bind_inl _ _ _ _ _ Hstep). }
  destruct (apply_isinstance_list_all sel).
  - destruct (DataFrame_explode df col) as [e|df']; simpl.
    { exists s. split; [done|]. split; [by rewrite app_nil_r|].
      by rewrite (bind_inl _ _ _ _ _ Hstep). }
    destruct Hstep as (id' & Hstep & Hfresh).
    rewrite (bind_inr _ _ _ _ _ Hstep).
    set (s1 := {| frames := <[id' := df']> (frames s); stdout := stdout s |}).
    destruct (IH s1 id' df') as (s' & Hsub & Hout & Hres).
    { apply lookup_insert_eq. }
    assert (frames s ⊆ frames s') as Hsub'.
    { etrans; [|exact Hsub]. by apply insert_subseteq. }
    exists s'. split; [done|]. split; [done|].
    destruct ((explode_loop df' rest).2) as [e|df'']; [done|].
    destruct Hres as (id'' & Hrun & Hlook & Hnew).
    exists id''. split; [done|]. split; [done|]. right.
    destruct Hnew as [->|Hnew]; [done|].
    simpl in Hnew. destruct (decide (id' = id'')) as [->|Hne]; [done|].
    by rewrite lookup_insert_ne in Hnew.
  - rewrite (bind_inr _ _ _ _ _ Hstep).
    set (s1 := {| frames := frames s;
                  stdout := stdout s ++ [explode_warning col] |}).
    destruct (IH s1 id df Hid) as (s' & Hsub & Hout & Hres).
    exists s'. split; [done|]. split.
    { rewrite Hout. simpl. by rewrite <- app_assoc. }
    done.
Qed.

Lemma getitem_computes s id df cols :
  frames s !! id = Some df →
  match getitem_columns df cols with
  | inl e => getitem id cols s = (inl e, s)
  | inr sub =>
      ∃ id', getitem id cols s
             = (inr id', {| frames := <[id' := sub]> (frames s);
                            stdout := stdout s |})
           ∧ frames s !! id' = None
  end.
Proof.
  intros Hid. unfold getitem, bind, deref, lift. rewrite Hid.
  destruct (getitem_columns df cols) as [e|sub]; [done|].
  apply new_frame_fresh.
Qed.

Lemma copy_computes s id df :
  frames s !! id = Some df →
  ∃ id', copy id s
         = (inr id', {| frames := <[id' := df]> (frames s); stdout := stdout s |})
       ∧ frames s !! id' = None.
Proof.
  intros Hid. unfold copy, bind, deref. rewrite Hid. apply new_frame_fresh.
Qed.

Lemma explode_body_computes s df_origin df sel exp :
  frames s !! df_origin = Some df →
  ∃ s', frames s ⊆ frames s' ∧
    match getitem_columns df sel with
    | inl e => explode_body df_origin sel exp s = (inl e, s')
               ∧ stdout s' = stdout s
    | inr df0 =>
        stdout s' = stdout s ++ (explode_loop df0 exp).1
        ∧ match (explode_loop df0 exp).2 with
          | inr df' =>
              ∃ id, explode_body df_origin sel exp s = (inr id, s')
                  ∧ frames s' !! id = Some df' ∧ frames s !! id = None
          | inl e => explode_body df_origin sel exp s = (inl e, s')
          end
    end.
Proof.
  intros Hid. unfold explode_body.
  pose proof (getitem_computes s df_origin df sel Hid) as Hsel.
  destruct (getitem_columns df sel) as [e|df0].
  { exists s. split; [done|]. by rewrite (bind_inl _ _ _ _ _ Hsel). }
  destruct Hsel as (i0 & Hsel & Hi0). rewrite (bind_inr _ _ _ _ _ Hsel).
  set (s1 := {| frames := <[i0 := df0]> (frames s); stdout := stdout s |}).
  destruct (copy_computes s1 i0 df0) as (i1 & Hcopy & Hi1).
  { apply lookup_insert_eq. }
  rewrite (bind_inr _ _ _ _ _ Hcopy).
  set (s2 := {| frames := <[i1 := df0]> (frames s1); stdout := stdout s1 |}).
  destruct (for_each_explode_computes exp s2 i1 df0) as (s' & Hsub & Hout & Hres).
  { apply lookup_insert_eq. }
  assert (frames s ⊆ frames s2) as Hs2.
  { etrans; [by apply insert_subseteq|]. by apply insert_subseteq. }
  exists s'. split; [by etrans|]. split; [done|].
  destruct ((explode_loop df0 exp).2) as [e|df']; [done|].
  destruct Hres as (id' & Hrun & Hlook & Hnew).
  exists id'. split; [done|]. split; [done|].
  destruct Hnew as [->|Hnew].
  - apply (lookup_weaken_None (frames s) (frames s1)); [done|].
    by apply insert_subseteq.
  - by apply (lookup_weaken_None (frames s) (frames s2)).
Qed.

Lemma explode_handlers e s :
  handle
    [ (is_KeyError,
       λ e, bind (print (explode_key_error e)) (λ _, ret (@None nat)));
      ((λ _, true),
       λ e, bind (print (explode_other_error e)) (λ _, ret None)) ] e s
  = (inr None, {| frames := frames s;
                  stdout := stdout s ++ [explode_diagnostic e] |}).
Proof. unfold explode_diagnostic. simpl. by destruct (is_KeyError e). Qed.

(** [explode_columns] always returns; what it prints and the frame it
    returns are those of [explode_outcome]; the frame is a new object, and
    the objects that were there stay as they were. *)
Lemma explode_columns_computes s df_origin df sel exp :
  frames s !! df_origin = Some df →
  ∃ r s', explode_columns df_origin sel exp s = (inr r, s')
        ∧ frames s ⊆ frames s'
        ∧ stdout s' = stdout s ++ (explode_outcome df sel exp).1
        ∧ match (explode_outcome df sel exp).2 with
          | Some df' =>
              ∃ id, r = Some id ∧ frames s' !! id = Some df'
                  ∧ frames s !! id = None
          | None => r = None
          end.
Proof.
  intros Hid. unfold explode_columns, explode_outcome.
  destruct (explode_body_computes s df_origin df sel exp Hid) as (s' & Hsub & Hres).
  destruct (getitem_columns df sel) as [e|df0].
  { destruct Hres as [Hrun Hout].
    rewrite (try_except_inl _ _ _ _ _ (bind_inl _ _ _ _ _ Hrun)), explode_handlers.
    eexists None, _. split; [done|]. simpl. by rewrite Hout. }
  destruct Hres as [Hout Hres].
  destruct ((explode_loop df0 exp).2) as [e|df'].
  - rewrite (try_except_inl _ _ _ _ _ (bind_inl _ _ _ _ _ Hres)), explode_handlers.
    eexists None, _. split; [done|]. simpl. rewrite Hout.
    by rewrite <- app_assoc.
  - destruct Hres as (id' & Hrun & Hlook & Hnew).
    rewrite (try_except_inr _ _ _ (Some id') s').
    2:{ by rewrite (bind_inr _ _ _ _ _ Hrun). }
    exists (Some id'), s'. split; [done|]. split; [done|]. split; [done|].
    by exists id'.
Qed.

(** ** Selecting columns *)

Lemma getitem_columns_missing df sel c :
  c ∈ sel → c ∉ columns df → ∃ key, getitem_columns df sel = inl (KeyError key).
Proof.
  intros Hc Hdf. unfold getitem_columns.
  assert (c ∈ filter (λ c, c ∉ columns df) sel) as Hin.
  { by apply list_elem_of_filter. }
  destruct (filter (λ c, c ∉ columns df) sel) as [|x l]; [|by eexists].
  by apply elem_of_nil in Hin.
Qed.

Lemma getitem_columns_inr df sel df0 :
  getitem_columns df sel = inr df0 →
  (∀ c, c ∈ sel → c ∈ columns df)
  ∧ (∀ c, c ∈ columns df0 ↔ c ∈ sel)
  ∧ rows df0 = restrict sel <$> rows df.
Proof.
  unfold getitem_columns. intros H.
  destruct (filter (λ c, c ∉ columns df) sel) as [|x l] eqn:E; [|done].
  assert (∀ c, c ∈ sel → c ∈ columns df) as Hall.
  { intros c Hc. destruct (decide (c ∈ columns df)) as [|Hn]; [done|].
    assert (c ∈ filter (λ c, c ∉ columns df) sel) as Hin
      by by apply list_elem_of_filter.
    rewrite E in Hin. by apply elem_of_nil in Hin. }
  injection H as <-. split; [done|]. split; [|done]. simpl.
  intros c. rewrite list_elem_of_bind. split.
  - intros (y & Hy & Hsel). apply list_elem_of_filter in Hy as [-> _]. done.
  - intros Hc. exists c. split; [|done]. apply list_elem_of_filter. auto.
Qed.

Lemma getitem_columns_unique df sel :
  NoDup (columns df) → (∀ c, c ∈ sel → c ∈ columns df) →
  getitem_columns df sel
  = inr {| columns := sel; rows := restrict sel <$> rows df |}.
Proof.
  intros Hnd Hall. unfold getitem_columns.
  assert (filter (λ c, c ∉ columns df) sel = []) as ->.
  { clear Hnd. induction sel as [|x l IH]; [done|].
    rewrite filter_cons. case_decide as Hx.
    - exfalso. apply Hx, Hall. left.
    - apply IH. intros c Hc. apply Hall. by right. }
  do 2 f_equal.
  induction sel as [|x l IH]; [done|]. simpl.
  rewrite filter_eq_NoDup; [|done|apply Hall; left]. simpl. f_equal.
  apply IH. intros c Hc. apply Hall. by right.
Qed.

(** ** The explode loop on frame values *)

Lemma DataFrame_explode_inr df col df' :
  DataFrame_explode df col = inr df' →
  NoDup (columns df) ∧ col ∈ columns df
  ∧ df' = {| columns := columns df; rows := rows df ≫= exploded_rows col |}.
Proof.
  unfold DataFrame_explode. intros H.
  case_bool_decide; [|done]. case_bool_decide; [|done].
  injection H as <-. done.
Qed.

Lemma DataFrame_explode_unique df col :
  NoDup (columns df) → col ∈ columns df →
  DataFrame_explode df col
  = inr {| columns := columns df; rows := rows df ≫= exploded_rows col |}.
Proof.
  intros Hnd Hin. unfold DataFrame_explode.
  rewrite bool_decide_eq_true_2 by done. by rewrite bool_decide_eq_true_2 by done.
Qed.

Lemma DataFrame_explode_inl df col e :
  NoDup (columns df) → DataFrame_explode df col = inl e → is_KeyError e = true.
Proof.
  intros Hnd. unfold DataFrame_explode.
  rewrite bool_decide_eq_true_2 by done. case_bool_decide; [done|].
  by intros [= <-].
Qed.

Lemma getitem_label_missing df col :
  col ∉ columns df → getitem_label df col = inl (KeyError col).
Proof. intros H. unfold getitem_label. by rewrite filter_eq_not_in. Qed.

Lemma getitem_label_unique df col :
  NoDup (columns df) → col ∈ columns df →
  getitem_label df col = inr (Series ((λ r, cell r col) <$> rows df)).
Proof. intros Hnd Hin. unfold getitem_label. by rewrite filter_eq_NoDup. Qed.

Lemma getitem_label_inl df col e :
  getitem_label df col = inl e → is_KeyError e = true.
Proof.
  unfold getitem_label.
  destruct (filter (λ c', c' = col) (columns df)) as [|? [|? ?]]; [|done..].
  by intros [= <-].
Qed.

(** A name that the frame does not have stops the loop. *)
Lemma explode_loop_missing exp : ∀ df0 c,
  c ∈ exp → c ∉ columns df0 →
  ∃ e, (explode_loop df0 exp).2 = inl e
     ∧ (NoDup (columns df0) → is_KeyError e = true).
Proof.
  induction exp as [|col rest IH]; intros df0 c Hc Hmiss.
  { by apply elem_of_nil in Hc. }
  simpl. destruct (getitem_label df0 col) as [e|sel] eqn:Hlab.
  { exists e. split; [done|]. intros _. by eapply getitem_label_inl. }
  assert (c ∈ rest) as Hrest.
  { apply elem_of_cons in Hc as [->|]; [|done].
    by rewrite getitem_label_missing in Hlab. }
  destruct (apply_isinstance_list_all sel).
  - destruct (DataFrame_explode df0 col) as [e|df'] eqn:Hex.
    { exists e. split; [done|]. intros Hnd. by eapply DataFrame_explode_inl. }
    apply DataFrame_explode_inr in Hex as (Hnd & _ & ->).
    destruct (IH {| columns := columns df0;
                    rows := rows df0 ≫= exploded_rows col |} c)
      as (e & He & Hk); [done..|].
    exists e. split; [done|]. intros _. by apply Hk.
  - simpl. by apply (IH df0 c).
Qed.

(** *** C9 *)

(** C9 ([explode_columns] never mutates its input).  Whatever the arguments,
    the call returns, with a frame or with [None]; every frame object that
    existed before the call, the input [df_origin] among them, holds after
    the call what it held before; and a frame that is returned is an object
    that did not exist before, never the input itself. *)
Theorem explode_columns_keeps_input (s : Session) (df_origin : nat)
    (cols_to_select cols_to_explode : list string) :
  ∃ r s', explode_columns df_origin cols_to_select cols_to_explode s = (inr r, s')
        ∧ (∀ id df, frames s !! id = Some df → frames s' !! id = Some df)
        ∧ (∀ id, r = Some id → frames s !! id = None).
Proof.
  destruct (frames s !! df_origin) as [df|] eqn:Hid.
  - destruct (explode_columns_computes s df_origin df cols_to_select
                cols_to_explode Hid) as (r & s' & Hrun & Hsub & _ & Hres).
    exists r, s'. split; [done|]. split.
    + intros id df' Hdf'. by eapply lookup_weaken.
    + intros id ->.
      destruct ((explode_outcome df cols_to_select cols_to_explode).2);
        [|done].
      destruct Hres as (id' & [= <-] & _ & Hnew). done.
  - assert (explode_body df_origin cols_to_select cols_to_explode s
            = (inl (RuntimeError "no such object"), s)) as Hbody.
    { unfold explode_body, getitem, bind, deref. by rewrite Hid. }
    unfold explode_columns.
    rewrite (try_except_inl _ _ _ _ _ (bind_inl _ _ _ _ _ Hbody)), explode_handlers.
    eexists None, _. split; [done|]. split; [done|]. done.
Qed.

(** ** What the call returns, as a frame value *)

Lemma returns_frame_outcome s df_origin df sel exp result :
  frames s !! df_origin = Some df →
  returns_frame s df_origin sel exp result
  ↔ (explode_outcome df sel exp).2 = Some result.
Proof.
  intros Hid.
  destruct (explode_columns_computes s df_origin df sel exp Hid)
    as (r & s' & Hrun & _ & _ & Hres).
  unfold returns_frame. split.
  - intros (id & s'' & Hrun' & Hlook). rewrite Hrun in Hrun'.
    injection Hrun' as -> ->.
    destruct ((explode_outcome df sel exp).2) as [df'|]; [|done].
    destruct Hres as (id' & [= <-] & Hlook' & _). congruence.
  - intros Hout. rewrite Hout in Hres.
    destruct Hres as (id & -> & Hlook & _). by exists id, s'.
Qed.

Lemma explode_outcome_missing df sel exp c :
  c ∈ sel ∨ c ∈ exp → c ∉ columns df →
  ∃ log e, explode_outcome df sel exp = (log ++ [explode_diagnostic e], None)
         ∧ (NoDup (columns df) → NoDup sel → is_KeyError e = true).
Proof.
  intros Hc Hmiss. unfold explode_outcome.
  destruct (getitem_columns df sel) as [e|df0] eqn:Hsel.
  { exists [], e. split; [done|]. intros _ _.
    unfold getitem_columns in Hsel.
    destruct (filter (λ c, c ∉ columns df) sel); [done|].
    by injection Hsel as <-. }
  pose proof Hsel as Hsel'.
  apply getitem_columns_inr in Hsel' as (Hall & Hcols & _).
  assert (c ∈ exp) as Hexp.
  { destruct Hc as [Hc|]; [|done]. by apply Hall in Hc. }
  destruct (explode_loop_missing exp df0 c Hexp) as (e & He & Hk).
  { rewrite Hcols. intros Hc'. by apply Hall in Hc'. }
  rewrite He. exists (explode_loop df0 exp).1, e. split; [done|].
  intros Hnd Hsnd. apply Hk.
  rewrite getitem_columns_unique in Hsel by done. by injection Hsel as <-.
Qed.

(** *** C6 *)

(** C6, amended (column absence is all-or-nothing).  When a name of
    [cols_to_select] or of [cols_to_explode] is not a column of the source
    frame, [explode_columns] returns [None]: no frame, whatever the other
    columns are and however many of them were already exploded.  With
    unique labels in the frame and in the selection, the last line printed
    is the diagnostic of the [except KeyError] clause, the one for columns
    that are not found, not a warning.  (With a repeated label another
    failure may come first, and the line is then the one of the general
    clause.) *)
Theorem explode_columns_missing_column (s : Session) (df_origin : nat)
    (df : DataFrame) (cols_to_select cols_to_explode : list string)
    (c : string) :
  frames s !! df_origin = Some df →
  c ∈ cols_to_select ∨ c ∈ cols_to_explode →
  c ∉ columns df →
  ∃ s', explode_columns df_origin cols_to_select cols_to_explode s
          = (inr None, s')
      ∧ (NoDup (columns df) → NoDup cols_to_select →
         ∃ log e, is_KeyError e = true
                ∧ stdout s' = stdout s ++ log ++ [explode_key_error e]).
Proof.
  intros Hid Hc Hmiss.
  destruct (explode_columns_computes s df_origin df cols_to_select
              cols_to_explode Hid) as (r & s' & Hrun & _ & Hout & Hres).
  destruct (explode_outcome_missing df cols_to_select cols_to_explode c Hc Hmiss)
    as (log & e & Heq & Hk).
  rewrite Heq in Hout, Hres. simpl in Hout, Hres. subst r.
  exists s'. split; [done|]. intros Hnd Hsel. exists log, e.
  specialize (Hk Hnd Hsel). split; [done|].
  rewrite Hout. unfold explode_diagnostic. by rewrite Hk.
Qed.

(** ** Exploding one column *)

Lemma forallb_cells_true (c : string) (l : list Row) :
  Forall (λ r, isinstance_list (cell r c) = true) l →
  forallb isinstance_list ((λ r, cell r c) <$> l) = true.
Proof.
  induction 1 as [|r l Hr _ IH]; [done|]. rewrite fmap_cons. simpl.
  rewrite Hr. exact IH.
Qed.


Lemma exploded_rows_list (c : string) (r : Row) (items : list Value) :
  cell r c = VList items →
  exploded_rows c r
  = match items with
    | [] => [ <[c := VNaN]> r ]
    | _ => (λ x, <[c := x]> r) <$> items
    end.
Proof. intros H. unfold exploded_rows. rewrite H. by destruct items. Qed.

(** *** C3 *)

(** C3, amended (explosion cardinality and order).  With unique labels,
    selected columns that the frame has and one column [c] to explode whose
    cells are all lists, [explode_columns] returns the frame whose rows
    are, for every source row in source order, the rows that row becomes.
    A row whose cell is a list of N >= 1 elements becomes N rows, one per
    element in element order, each equal to the source row (restricted to
    the selected columns) but for the cell of [c], which holds the
    element.  A row whose cell is the empty list becomes one row, with the
    missing value in [c]: it is not dropped. *)
Theorem explode_columns_rows (s : Session) (df_origin : nat) (df : DataFrame)
    (cols_to_select : list string) (c : string) :
  frames s !! df_origin = Some df →
  NoDup (columns df) →
  NoDup cols_to_select →
  (∀ x, x ∈ cols_to_select → x ∈ columns df) →
  c ∈ cols_to_select →
  Forall (λ r, isinstance_list (cell r c) = true) (rows df) →
  returns_frame s df_origin cols_to_select [c]
    {| columns := cols_to_select;
       rows := (restrict cols_to_select <$> rows df) ≫= exploded_rows c |}
  ∧ ∀ r items, cell r c = VList items →
      exploded_rows c (restrict cols_to_select r)
      = match items with
        | [] => [ <[c := VNaN]> (restrict cols_to_select r) ]
        | _ => (λ x, <[c := x]> (restrict cols_to_select r)) <$> items
        end
      ∧ length (exploded_rows c (restrict cols_to_select r))
        = max 1 (length items).
Proof.
  intros Hid Hnd Hsel Hall Hc Hlists. split.
  - apply (returns_frame_outcome _ _ df); [done|].
    unfold explode_outcome. rewrite getitem_columns_unique by done.
    cbn [explode_loop]. rewrite getitem_label_unique by done.
    cbn [apply_isinstance_list_all rows].
    rewrite forallb_cells_true.
    2:{ apply Forall_fmap. eapply Forall_impl; [exact Hlists|].
        intros r Hr. simpl. by rewrite cell_restrict. }
    by rewrite DataFrame_explode_unique.
  - intros r items Hcell.
    assert (cell (restrict cols_to_select r) c = VList items) as Hcell'.
    { by rewrite cell_restrict. }
    rewrite (exploded_rows_list _ _ _ Hcell'). split; [done|].
    destruct items; [done|]. by rewrite length_fmap.
Qed.

(** ** Columns the loop skips *)









(** ** Columns of lists and the others *)

Lemma explode_columns_returns s df_origin df sel exp log df' :
  frames s !! df_origin = Some df →
  explode_outcome df sel exp = (log, Some df') →
  ∃ id s', explode_columns df_origin sel exp s = (inr (Some id), s')
         ∧ frames s' !! id = Some df'
         ∧ frames s !! id = None
         ∧ stdout s' = stdout s ++ log.
Proof.
  intros Hid Hout.
  destruct (explode_columns_computes s df_origin df sel exp Hid)
    as (r & s' & Hrun & _ & Hlog & Hres).
  rewrite Hout in Hlog, Hres. simpl in Hlog, Hres.
  destruct Hres as (id & -> & Hlook & Hnew). by exists id, s'.
Qed.

Lemma exploded_rows_nonempty col r : exploded_rows col r ≠ [].
Proof.
  unfold exploded_rows. pose proof (explode_cell_nonempty (cell r col)).
  by destruct (explode_cell (cell r col)).
Qed.

Lemma exploded_rows_cell col r r' c :
  r' ∈ exploded_rows col r → c ≠ col → cell r' c = cell r c.
Proof.
  unfold exploded_rows. intros (x & -> & _)%list_elem_of_fmap Hne.
  by apply cell_insert_ne.
Qed.










(** *** C7 *)


(** ** The upsert writer *)







(** On a location that holds a table the upsert is the merge. *)
Lemma upsert_existing (lake : Lake) t new_data data_path predicate partition_cols :
  lake !! data_path = Some t →
  save_new_data_as_delta lake_client new_data data_path predicate
    partition_cols lake
  = match Table_from_pandas new_data with
    | inl e => (inl e, lake)
    | inr source =>
        lake_execute
          (when_not_matched_insert_all
             (merge {| table_uri := data_path |} source "source" "target"
                predicate)) lake
    end.
Proof.
  intros Ht.
  unfold save_new_data_as_delta, try_except, merge_new_data, bind, lift. simpl.
  unfold lake_DeltaTable. rewrite Ht.
  destruct (Table_from_pandas new_data) as [e|source] eqn:E.
  { unfold Table_from_pandas in E. case_bool_decide; [done|].
    by injection E as <-. }
  unfold lake_execute. simpl. rewrite Ht.
  repeat (match goal with |- context [if ?b then _ else _] => destruct b end;
          simpl; try done).
Qed.

(** On a location that holds no table it is the full write. *)
Lemma upsert_absent (lake : Lake) new_data data_path predicate partition_cols :
  lake !! data_path = None →
  save_new_data_as_delta lake_client new_data data_path predicate
    partition_cols lake
  = lake_write_deltalake data_path new_data "overwrite" partition_cols lake.
Proof.
  intros Ht.
  unfold save_new_data_as_delta, try_except, merge_new_data, bind. simpl.
  unfold lake_DeltaTable. by rewrite Ht.
Qed.






(** *** C4 *)

(** C4 (fallback).  Over any storage, when the [DeltaTable] constructor
    raises [TableNotFoundError] for the location, the upsert is the full
    write of the batch at that location: [save_data_as_delta] with the
    mode left out, which is [write_deltalake] in mode ['overwrite'], with
    the partition columns that were given. *)
Theorem upsert_falls_back_to_full_write {S : Type} (deltalake : DeltaLake S)
    (new_data : DataFrame) (data_path : string) (predicate : SqlExpr)
    (partition_cols : option (list string)) (s s' : S) (msg : string) :
  DeltaTable deltalake data_path s = (inl (TableNotFoundError msg), s') →
  save_new_data_as_delta deltalake new_data data_path predicate
    partition_cols s
  = save_data_as_delta deltalake new_data data_path None partition_cols s'
  ∧ save_data_as_delta deltalake new_data data_path None partition_cols s'
    = save_data_as_delta deltalake new_data data_path (Some "overwrite")
        partition_cols s'
  ∧ save_data_as_delta deltalake new_data data_path (Some "overwrite")
      partition_cols s'
    = write_deltalake deltalake data_path new_data "overwrite"
        partition_cols s'.
Proof.
  intros Hopen. split; [|done].
  unfold save_new_data_as_delta, merge_new_data.
  by rewrite (try_except_inl _ _ _ _ _ (bind_inl _ _ _ _ _ Hopen)).
Qed.

(** *** C5 *)

(** C5 (only table-not-found is recovered).  Over any storage, when one of
    the statements under [try] raises an exception that is not a
    [TableNotFoundError] (the [DeltaTable] constructor on a storage
    failure, the conversion of the batch to Arrow, or the merge itself, on
    a predicate that names a missing column or on a schema mismatch),
    [save_new_data_as_delta] raises that same exception, in the state the
    failure left: the handler, and with it the full write, does not run. *)
Theorem upsert_propagates_other_errors {S : Type} (deltalake : DeltaLake S)
    (new_data : DataFrame) (data_path : string) (predicate : SqlExpr)
    (partition_cols : option (list string)) (s s' : S) (e : PyExc) :
  DeltaTable deltalake data_path s = (inl e, s')
  ∨ (∃ dt s1,
       DeltaTable deltalake data_path s = (inr dt, s1)
       ∧ (Table_from_pandas new_data = inl e ∧ s' = s1
          ∨ ∃ source,
              Table_from_pandas new_data = inr source
              ∧ execute deltalake
                  (when_not_matched_insert_all
                     (merge dt source "source" "target" predicate)) s1
                = (inl e, s'))) →
  is_TableNotFoundError e = false →
  save_new_data_as_delta deltalake new_data data_path predicate
    partition_cols s = (inl e, s').
Proof.
  intros Hraise Hother.
  assert (merge_new_data deltalake new_data data_path predicate s
          = (inl e, s')) as Hbody.
  { unfold merge_new_data.
    destruct Hraise as [Hopen|(dt & s1 & Hopen & Hrest)].
    { by rewrite (bind_inl _ _ _ _ _ Hopen). }
    rewrite (bind_inr _ _ _ _ _ Hopen). unfold bind, lift.
    destruct Hrest as [[-> ->]|(source & -> & Hexec)]; done. }
  unfold save_new_data_as_delta.
  rewrite (try_except_inl _ _ _ _ _ Hbody). simpl. by rewrite Hother.
Qed.

(** ** The fetch *)

Lemma raise_for_status_error response :
  (400 ≤ status_code response < 600)%Z →
  ∃ msg, raise_for_status response = inl (RequestException "HTTPError" msg).
Proof.
  intros H. unfold raise_for_status.
  case_bool_decide; [by eexists|]. case_bool_decide; [by eexists|]. lia.
Qed.

Lemma raise_for_status_ok response :
  ¬ (400 ≤ status_code response < 600)%Z → raise_for_status response = inr tt.
Proof.
  intros H. unfold raise_for_status.
  case_bool_decide; [lia|]. case_bool_decide; [lia|]. done.
Qed.

(** *** C8 *)

(** C8, amended (a failed fetch yields [None]).  When [requests.get]
    raises a [RequestException], or the response has an error status (400
    to 599), or its body is not JSON, or the JSON body has no field
    [data_field] to read (it is no object, or an object without the key),
    [get_data] prints one diagnostic line and returns [None]; it does not
    raise.  (A status outside 200-299 that is no error status, such as
    300, is not a failure for [raise_for_status].) *)
Theorem get_data_failure_returns_None
    (requests_get : string → option (list (string * string))
                    → option (list (string * string)) → PyExc + Response)
    (base_url endpoint data_field : string)
    (params headers : option (list (string * string))) (s : Session) :
  (∃ e, requests_get (base_url ++ "/" ++ endpoint)%string params headers = inl e
        ∧ is_RequestException e = true)
  ∨ (∃ response,
       requests_get (base_url ++ "/" ++ endpoint)%string params headers
         = inr response
       ∧ ((400 ≤ status_code response < 600)%Z
          ∨ body_json response = None
          ∨ ∃ data e, body_json response = Some data
                      ∧ subscript data data_field = inl e)) →
  ∃ line,
    get_data requests_get base_url endpoint data_field params headers s
    = (inr VNone, {| frames := frames s; stdout := stdout s ++ [line] |}).
Proof.
  intros [(e & Hget & He)|(response & Hget & Hbad)];
    unfold get_data, try_except, bind, lift; rewrite Hget.
  { simpl. rewrite He. by eexists. }
  destruct (decide (400 ≤ status_code response < 600)%Z) as [Herr|Hok].
  { destruct (raise_for_status_error response Herr) as (msg & ->).
    simpl. by eexists. }
  rewrite (raise_for_status_ok response Hok).
  destruct Hbad as [?|[Hbody|(data & e & Hbody & Hsub)]]; [done| |];
    unfold Response_json; rewrite Hbody.
  - simpl. by eexists.
  - rewrite Hsub. simpl. by eexists.
Qed.

(** ** The extraction stamp *)

Lemma pad2_digits n :
  n < 100 →
  ∃ a b, pad2 n = String a (String b EmptyString)
       ∧ is_digit a = true ∧ is_digit b = true.
Proof.
  intros Hn.
  assert (forallb (λ n, match pad2 n with
                        | String a (String b EmptyString) =>
                            is_digit a && is_digit b
                        | _ => false
                        end) (seq 0 100) = true) as Hall.
  { vm_compute. reflexivity. }
  rewrite forallb_forall in Hall.
  assert (In n (seq 0 100)) as Hin by (apply in_seq; lia).
  specialize (Hall n Hin).
  destruct (pad2 n) as [|a [|b [|c rest]]]; try discriminate Hall.
  apply andb_true_iff in Hall as [Ha Hb]. by exists a, b.
Qed.

Lemma strftime_HMS_shape t : valid_time t → is_HH_MM_SS (strftime_HMS t) = true.
Proof.
  intros (Hh & Hm & Hs). unfold strftime_HMS.
  destruct (pad2_digits (hour t)) as (h1 & h2 & -> & Hh1 & Hh2); [lia|].
  destruct (pad2_digits (minute t)) as (m1 & m2 & -> & Hm1 & Hm2); [lia|].
  destruct (pad2_digits (second t)) as (s1 & s2 & -> & Hs1 & Hs2); [lia|].
  unfold is_HH_MM_SS. simpl.
  rewrite Hh1, Hh2, Hm1, Hm2, Hs1, Hs2. done.
Qed.

Lemma pad2_value n :
  n < 100 →
  ∃ a b, pad2 n = String a (String b EmptyString)
       ∧ 10 * digit_value a + digit_value b = n.
Proof.
  intros Hn.
  assert (forallb (λ n, match String.list_ascii_of_string (pad2 n) with
                        | [a; b] => Nat.eqb (10 * digit_value a + digit_value b) n
                        | _ => false
                        end) (seq 0 100) = true) as Hall.
  { vm_compute. reflexivity. }
  rewrite forallb_forall in Hall.
  assert (In n (seq 0 100)) as Hin by (apply in_seq; lia).
  specialize (Hall n Hin).
  destruct (pad2 n) as [|a [|b [|c rest]]]; simpl in Hall;
    try discriminate Hall.
  exists a, b. split; [done|]. by apply Nat.eqb_eq.
Qed.

Lemma strftime_HMS_fields t :
  valid_time t →
  stamp_fields (strftime_HMS t) = Some (hour t, minute t, second t).
Proof.
  intros (Hh & Hm & Hs). unfold strftime_HMS.
  destruct (pad2_value (hour t)) as (h1 & h2 & -> & <-); [lia|].
  destruct (pad2_value (minute t)) as (m1 & m2 & -> & <-); [lia|].
  destruct (pad2_value (second t)) as (s1 & s2 & -> & <-); [lia|].
  reflexivity.
Qed.

(** *** C10 *)

(** C10 (one stamp for the whole batch).  When pandas builds a frame from
    the records, [build_table_incremental] reads the clock once and
    returns that frame, with as many rows, in which every row has the date
    of that one reading under [fecha_consulta] and its time of day under
    [hora_consulta].  The date is the year, month and day of the reading.
    The time is two digits, a colon, two digits, a colon, two digits, and
    the three numbers read back from it are the hour, the minute and the
    second of the reading. *)
Theorem build_table_incremental_stamp
    (pd_DataFrame : Value → PyExc + DataFrame) (json_data : Value)
    (clock : Clock) (df0 : DataFrame) :
  pd_DataFrame json_data = inr df0 →
  valid_time (readings clock (reads clock)) →
  ∃ df,
    build_table_incremental pd_DataFrame json_data clock
    = (inr df, {| readings := readings clock; reads := S (reads clock) |})
    ∧ length (rows df) = length (rows df0)
    ∧ "fecha_consulta" ∈ columns df ∧ "hora_consulta" ∈ columns df
    ∧ (∀ r, r ∈ rows df →
         cell r "fecha_consulta"
           = datetime_date (readings clock (reads clock))
         ∧ cell r "hora_consulta"
           = VStr (strftime_HMS (readings clock (reads clock))))
    ∧ is_HH_MM_SS (strftime_HMS (readings clock (reads clock))) = true
    ∧ datetime_date (readings clock (reads clock))
      = VDate (year (readings clock (reads clock)))
          (month (readings clock (reads clock)))
          (day (readings clock (reads clock)))
    ∧ stamp_fields (strftime_HMS (readings clock (reads clock)))
      = Some (hour (readings clock (reads clock)),
              minute (readings clock (reads clock)),
              second (readings clock (reads clock))).
Proof.
  intros Hdf Hvalid.
  unfold build_table_incremental, bind, lift, datetime_now, ret. rewrite Hdf.
  eexists. split; [reflexivity|]. cbn [setitem_scalar rows columns].
  split; [by rewrite !length_fmap|].
  assert ("fecha_consulta"
          ∈ (if bool_decide ("fecha_consulta" ∈ columns df0) then columns df0
             else columns df0 ++ ["fecha_consulta"])) as Hfecha.
  { case_bool_decide; [done|]. apply elem_of_app. right. left. }
  revert Hfecha. generalize (if bool_decide ("fecha_consulta" ∈ columns df0)
                             then columns df0
                             else columns df0 ++ ["fecha_consulta"]).
  intros cols1 Hfecha.
  split.
  { case_bool_decide; [done|]. apply elem_of_app. by left. }
  split.
  { case_bool_decide; [done|]. apply elem_of_app. right. left. }
  split; [|split; [by apply strftime_HMS_shape|split;
                   [reflexivity|by apply strftime_HMS_fields]]].
  intros r Hr. cbn [setitem_scalar rows] in Hr.
  apply list_elem_of_fmap in Hr as (r1 & -> & Hr1).
  apply list_elem_of_fmap in Hr1 as (r0 & -> & _).
  split.
  - rewrite cell_insert_ne by done. apply cell_insert_eq.
  - apply cell_insert_eq.
Qed.

(** * The properties on the sample data *)

(** C1 (idempotent upsert), at a failing input.  The routes frame of the
    sample stops is upserted twice at a location with no table, with the
    predicate of the pipeline, equality of [StopID] and of [Routes].  The
    first run stores its three rows.  The second run stores the row of the
    stop without routes again: its [Routes] is missing, and the equality
    of a missing value with itself is not TRUE.  The table after two runs
    has four rows and differs from the table after one run. *)
Theorem upsert_missing_key_repeats :
  (λ t, length (data t))
    <$> (save_new_data_as_delta lake_client sample_routes "silver/routes"
           (key_predicate "StopID" ["Routes"]) None ∅).2 !! "silver/routes"
  = Some 3
  ∧ (λ t, length (data t))
      <$> (save_new_data_as_delta lake_client sample_routes "silver/routes"
             (key_predicate "StopID" ["Routes"]) None
             (save_new_data_as_delta lake_client sample_routes "silver/routes"
                (key_predicate "StopID" ["Routes"]) None ∅).2).2
          !! "silver/routes"
    = Some 4
  ∧ (save_new_data_as_delta lake_client sample_routes "silver/routes"
       (key_predicate "StopID" ["Routes"]) None
       (save_new_data_as_delta lake_client sample_routes "silver/routes"
          (key_predicate "StopID" ["Routes"]) None ∅).2).2
    ≠ (save_new_data_as_delta lake_client sample_routes "silver/routes"
         (key_predicate "StopID" ["Routes"]) None ∅).2.
Proof.
  split; [vm_compute; reflexivity|]. split; [vm_compute; reflexivity|].
  intros H.
  apply (f_equal (λ lake : Lake,
                    (λ t, length (data t)) <$> lake !! "silver/routes")) in H.
  vm_compute in H. discriminate H.
Qed.

(** C2 (insert-only merge, each unmatched row exactly once), at a failing
    input.  The table holds (1,A) and the batch holds the row (2,C) twice.
    No row of the table matches (2,C) on [id]; the upsert succeeds, (1,A)
    stays, and (2,C) is in the table twice, at positions 1 and 2. *)
Theorem upsert_inserts_batch_duplicates :
  ∃ lake' t',
    save_new_data_as_delta lake_client
      (batch [key_row (VInt 2) "C"; key_row (VInt 2) "C"]) "silver/stops"
      (key_predicate "id" []) None lake_one = (inr tt, lake')
    ∧ matched "source" "target" (key_predicate "id" [])
        [key_row (VInt 1) "A"] (key_row (VInt 2) "C") = false
    ∧ lake' !! "silver/stops" = Some t'
    ∧ data t' = [ key_row (VInt 1) "A"; key_row (VInt 2) "C";
                  key_row (VInt 2) "C" ].
Proof.
  eexists _, _. split; [vm_compute; reflexivity|].
  split; [reflexivity|]. split; [vm_compute; reflexivity|].
  vm_compute. reflexivity.
Qed.

(** C4 on the sample storage: nothing is stored at the bronze location. *)
Lemma upsert_falls_back_sample :
  save_new_data_as_delta lake_client
    (batch [key_row (VInt 1) "B"]) "bronze/stops" (key_predicate "id" [])
    (Some ["v"]) lake_one
  = (inr tt,
     <["bronze/stops" :=
         {| schema := ["id"; "v"]; partition_columns := ["v"];
            data := [key_row (VInt 1) "B"] |}]> lake_one).
Proof.
  destruct (upsert_falls_back_to_full_write lake_client
              (batch [key_row (VInt 1) "B"]) "bronze/stops"
              (key_predicate "id" []) (Some ["v"]) lake_one lake_one
              "no log files: bronze/stops") as (-> & -> & ->).
  - reflexivity.
  - vm_compute. reflexivity.
Defined.

(** C5 on the sample table: a predicate on a column that does not exist. *)
Lemma upsert_propagates_sample :
  save_new_data_as_delta lake_client
    (batch [key_row (VInt 2) "C"]) "silver/stops" (key_predicate "StopID" [])
    None lake_one
  = (inl (DeltaError "Schema error: No field named in predicate"), lake_one).
Proof.
  apply (upsert_propagates_other_errors lake_client).
  - right. exists {| table_uri := "silver/stops" |}, lake_one.
    split; [reflexivity|]. right. eexists. split; reflexivity.
  - reflexivity.
Defined.

(** C3 on a frame whose route lists are not empty. *)
Lemma explode_columns_rows_sample :
  returns_frame
    (session_of {| columns := ["StopID"; "Routes"];
                   rows := [ {[ "StopID" := VInt 1;
                                "Routes" := VList [VStr "r1"; VStr "r2"] ]} ] |})
    0 ["StopID"; "Routes"] ["Routes"]
    {| columns := ["StopID"; "Routes"];
       rows := [ {[ "StopID" := VInt 1; "Routes" := VStr "r1" ]};
                 {[ "StopID" := VInt 1; "Routes" := VStr "r2" ]} ] |}.
Proof.
  replace [ ({[ "StopID" := VInt 1; "Routes" := VStr "r1" ]} : Row);
            {[ "StopID" := VInt 1; "Routes" := VStr "r2" ]} ]
    with ((restrict ["StopID"; "Routes"]
             <$> [ ({[ "StopID" := VInt 1;
                       "Routes" := VList [VStr "r1"; VStr "r2"] ]} : Row) ])
            ≫= exploded_rows "Routes")
    by (vm_compute; reflexivity).
  apply (explode_columns_rows
           (session_of {| columns := ["StopID"; "Routes"];
                          rows := [ {[ "StopID" := VInt 1;
                                       "Routes" := VList [VStr "r1"; VStr "r2"] ]} ] |})
           0 {| columns := ["StopID"; "Routes"];
                rows := [ {[ "StopID" := VInt 1;
                             "Routes" := VList [VStr "r1"; VStr "r2"] ]} ] |}
           ["StopID"; "Routes"] "Routes").
  - reflexivity.
  - by apply (bool_decide_unpack (NoDup _)).
  - by apply (bool_decide_unpack (NoDup _)).
  - intros x Hx. exact Hx.
  - by apply (bool_decide_unpack (_ ∈ _)).
  - repeat constructor.
Defined.

(** The stop with no route is not dropped by the explode: its row is
    there, with the missing value for the route.  The frame returned has
    three rows, two for the two routes of the first stop and one for the
    second stop, whose list has no element; it is not the frame of the
    first two rows. *)
Lemma explode_columns_keeps_empty_list :
  cell (stop_row 2 "B" (VList [])) "Routes" = VList []
  ∧ returns_frame (session_of sample_stops) 0 ["StopID"; "Routes"] ["Routes"]
      sample_routes
  ∧ ¬ returns_frame (session_of sample_stops) 0 ["StopID"; "Routes"]
        ["Routes"]
        {| columns := ["StopID"; "Routes"];
           rows := [ {[ "StopID" := VInt 1; "Routes" := VStr "r1" ]};
                     {[ "StopID" := VInt 1; "Routes" := VStr "r2" ]} ] |}.
Proof.
  split; [reflexivity|]. split.
  - apply (returns_frame_outcome _ _ sample_stops); [reflexivity|].
    vm_compute. reflexivity.
  - intros H.
    apply (returns_frame_outcome _ _ sample_stops) in H; [|reflexivity].
    apply (f_equal (λ r : option DataFrame, (λ df, length (rows df)) <$> r))
      in H.
    vm_compute in H. discriminate H.
Qed.

(** C6 on the sample frame: a column to explode that does not exist,
    after a column that was exploded.  No frame is returned, and the line
    printed is the one for columns that are not found. *)
Lemma explode_columns_missing_column_sample :
  ∃ s', explode_columns 0 ["StopID"; "Routes"] ["Routes"; "Route"]
          (session_of sample_stops) = (inr None, s')
      ∧ ∃ log e, is_KeyError e = true
               ∧ stdout s' = stdout (session_of sample_stops) ++ log
                               ++ [explode_key_error e].
Proof.
  destruct (explode_columns_missing_column (session_of sample_stops) 0
              sample_stops ["StopID"; "Routes"] ["Routes"; "Route"] "Route")
    as (s' & Hrun & Hline).
  - reflexivity.
  - right. by apply (bool_decide_unpack (_ ∈ _)).
  - by apply (bool_decide_unpack (_ ∉ _)).
  - exists s'. split; [exact Hrun|]. apply Hline.
    + by apply (bool_decide_unpack (NoDup _)).
    + by apply (bool_decide_unpack (NoDup _)).
Defined.

(** C6, at a failing input.  The selection names [StopID] twice and the
    columns to explode end with a name, [Zzz], that the frame does not
    have.  The call returns [None], but the failure is not the one for a
    column that is not found: the explode of [Routes] comes first and
    pandas refuses it on the repeated label, so the only line printed is
    the one of the general [except Exception] clause. *)
Lemma explode_columns_repeated_label_error :
  ("Zzz" ∉ columns sample_stops)
  ∧ ∃ s', explode_columns 0 ["StopID"; "StopID"; "Routes"] ["Routes"; "Zzz"]
            (session_of sample_stops) = (inr None, s')
        ∧ stdout s'
          = [ explode_other_error
                (ValueError "DataFrame columns must be unique") ]
        ∧ ∀ e, explode_key_error e ∉ stdout s'.
Proof.
  split; [by apply (bool_decide_unpack (_ ∉ _))|].
  destruct (explode_columns_computes (session_of sample_stops) 0 sample_stops
              ["StopID"; "StopID"; "Routes"] ["Routes"; "Zzz"] eq_refl)
    as (r & s' & Hrun & _ & Hout & Hres).
  assert (explode_outcome sample_stops ["StopID"; "StopID"; "Routes"]
            ["Routes"; "Zzz"]
          = ([ explode_other_error
                 (ValueError "DataFrame columns must be unique") ], None))
    as Heq by (vm_compute; reflexivity).
  rewrite Heq in Hout, Hres. cbn [fst snd] in Hout, Hres. subst r.
  exists s'. split; [exact Hrun|]. split; [exact Hout|].
  intros e He. rewrite Hout in He.
  apply list_elem_of_singleton in He. discriminate He.
Qed.



(** C8 on a 404 answer. *)
Lemma get_data_failure_sample :
  ∃ line,
    get_data (respond 404 "Not Found" None) "http://api.wmata.com/Bus.svc/json"
      "jStops" "Stops" None None (session_of sample_stops)
    = (inr VNone,
       {| frames := frames (session_of sample_stops);
          stdout := stdout (session_of sample_stops) ++ [line] |}).
Proof.
  apply (get_data_failure_returns_None (respond 404 "Not Found" None)).
  right. eexists. split; [reflexivity|]. left. simpl. lia.
Defined.

(** A 300 answer is outside 200-299, and [get_data] returns its records:
    nothing is printed and the result is not [None]. *)
Lemma get_data_returns_data_on_300 :
  ¬ (200 ≤ 300 < 300)%Z
  ∧ get_data (respond 300 "Multiple Choices" (Some stops_feed))
      "http://api.wmata.com/Bus.svc/json" "jStops" "Stops" None None
      (session_of sample_stops)
    = (inr (VList [ VDict [ ("StopID", VStr "1000001") ] ]),
       session_of sample_stops)
  ∧ VList [ VDict [ ("StopID", VStr "1000001") ] ] ≠ VNone.
Proof.
  split; [lia|]. split; [vm_compute; reflexivity|]. discriminate.
Qed.

(** C10 on two vehicle positions, on a clock that read 09:05:30 on
    2024-05-17 before and reads 23:59:07 on 2025-12-31 now. *)
Lemma build_table_incremental_stamp_sample :
  ∃ df,
    build_table_incremental records_frame two_positions ticking_clock
    = (inr df, {| readings := readings ticking_clock; reads := 2 |})
    ∧ length (rows df) = 2
    ∧ "fecha_consulta" ∈ columns df ∧ "hora_consulta" ∈ columns df
    ∧ (∀ r, r ∈ rows df →
         cell r "fecha_consulta" = VDate 2025 12 31
         ∧ cell r "hora_consulta" = VStr "23:59:07")
    ∧ is_HH_MM_SS "23:59:07" = true
    ∧ datetime_date evening = VDate 2025 12 31
    ∧ stamp_fields "23:59:07" = Some (23, 59, 7).
Proof.
  apply (build_table_incremental_stamp records_frame two_positions
           ticking_clock
           {| columns := ["VehicleID"];
              rows := [ {[ "VehicleID" := VInt 7 ]};
                        {[ "VehicleID" := VInt 8 ]} ] |}).
  - reflexivity.
  - unfold valid_time. simpl. lia.
Defined.

(** * Further properties *)

(** ** The fetch, case by case *)

(** What [get_data] does for each outcome of the request. *)
Lemma get_data_computes
    (requests_get : string → option (list (string * string))
                    → option (list (string * string)) → PyExc + Response)
    (base_url endpoint data_field : string)
    (params headers : option (list (string * string))) (s : Session) :
  get_data requests_get base_url endpoint data_field params headers s
  = match requests_get (base_url ++ "/" ++ endpoint)%string params headers with
    | inl e =>
        if is_RequestException e
        then (inr VNone, {| frames := frames s;
                            stdout := stdout s ++ [request_failed e] |})
        else (inl e, s)
    | inr response =>
        match raise_for_status response with
        | inl e => (inr VNone, {| frames := frames s;
                                  stdout := stdout s ++ [request_failed e] |})
        | inr _ =>
            match body_json response with
            | None => (inr VNone, {| frames := frames s;
                                     stdout := stdout s ++ [unexpected_format] |})
            | Some data =>
                match subscript data data_field with
                | inr v => (inr v, s)
                | inl _ => (inr VNone,
                            {| frames := frames s;
                               stdout := stdout s ++ [unexpected_format] |})
                end
            end
        end
    end.
Proof.
  unfold get_data, try_except, bind, lift.
  destruct (requests_get _ params headers) as [e|response]; simpl.
  { by destruct (is_RequestException e). }
  unfold raise_for_status.
  case_bool_decide; [done|]. case_bool_decide; [done|].
  unfold Response_json. destruct (body_json response) as [data|]; [|done].
  by destruct (subscript data data_field).
Qed.

Lemma subscript_inr data key v :
  subscript data key = inr v ↔ ∃ entries, data = VDict entries
                                          ∧ dict_get entries key = Some v.
Proof.
  split.
  - destruct data; try done. simpl.
    destruct (dict_get entries key) as [w|] eqn:E; [|done].
    intros [= <-]. by eexists.
  - intros (entries & -> & Hget). simpl. by rewrite Hget.
Qed.

(** X1.  [get_data] returns a value other than [None] exactly when the
    request came back with a status that is no error status (not 400 to
    599) and a JSON body that is an object with the field [data_field];
    the value is that field, and nothing is printed. *)
Theorem get_data_returns_value_iff
    (requests_get : string → option (list (string * string))
                    → option (list (string * string)) → PyExc + Response)
    (base_url endpoint data_field : string)
    (params headers : option (list (string * string))) (s s' : Session)
    (v : Value) :
  get_data requests_get base_url endpoint data_field params headers s
    = (inr v, s') ∧ v ≠ VNone
  ↔ s' = s ∧ v ≠ VNone
    ∧ ∃ response entries,
        requests_get (base_url ++ "/" ++ endpoint)%string params headers
          = inr response
        ∧ ¬ (400 ≤ status_code response < 600)%Z
        ∧ body_json response = Some (VDict entries)
        ∧ dict_get entries data_field = Some v.
Proof.
  rewrite get_data_computes. split.
  - intros [Hrun Hv].
    destruct (requests_get _ params headers) as [e|response].
    { destruct (is_RequestException e); [|done]. by injection Hrun as <- _. }
    destruct (decide (400 ≤ status_code response < 600)%Z) as [Herr|Hok].
    { destruct (raise_for_status_error response Herr) as (msg & Hraise).
      rewrite Hraise in Hrun. by injection Hrun as <- _. }
    rewrite (raise_for_status_ok response Hok) in Hrun.
    destruct (body_json response) as [data|] eqn:Hbody;
      [|by injection Hrun as <- _].
    destruct (subscript data data_field) as [e|w] eqn:Hsub;
      [by injection Hrun as <- _|].
    injection Hrun as -> ->.
    apply subscript_inr in Hsub as (entries & -> & Hget).
    split; [done|]. split; [done|]. by exists response, entries.
  - intros (-> & Hv & response & entries & -> & Hok & -> & Hget).
    rewrite (raise_for_status_ok response Hok). simpl. by rewrite Hget.
Qed.

(** X2.  An exception of [requests.get] that is no [RequestException] is
    not handled: [get_data] raises it, and prints nothing. *)
Theorem get_data_raises_other_exceptions
    (requests_get : string → option (list (string * string))
                    → option (list (string * string)) → PyExc + Response)
    (base_url endpoint data_field : string)
    (params headers : option (list (string * string))) (s : Session)
    (e : PyExc) :
  requests_get (base_url ++ "/" ++ endpoint)%string params headers = inl e →
  is_RequestException e = false →
  get_data requests_get base_url endpoint data_field params headers s
  = (inl e, s).
Proof. intros Hget He. rewrite get_data_computes, Hget. by rewrite He. Qed.

(** X3.  [build_table] never raises: whatever [json_normalize] raises is
    caught.  It returns a frame exactly when [json_normalize] builds one,
    that frame, with nothing printed; otherwise it returns [None] and
    prints one line.  The frame objects are left alone. *)
Theorem build_table_never_raises
    (json_normalize : Value → PyExc + DataFrame) (json_data : Value)
    (s : Session) :
  ∃ r s',
    build_table json_normalize json_data s = (inr r, s')
    ∧ frames s' = frames s
    ∧ (∀ df, r = Some df ↔ json_normalize json_data = inr df)
    ∧ (r = None ↔ ∃ e, json_normalize json_data = inl e)
    ∧ stdout s' = stdout s ++ match r with
                               | Some _ => []
                               | None => [unexpected_data]
                               end.
Proof.
  unfold build_table, try_except, bind, lift.
  destruct (json_normalize json_data) as [e|df]; simpl.
  - eexists None, _. split; [done|]. split; [done|].
    split; [done|]. split; [|done]. split; [by eexists|done].
  - exists (Some df), s. split; [done|]. split; [done|].
    split; [intros df'; split; congruence|].
    split; [|by rewrite app_nil_r]. split; [done|]. by intros (? & ?).
Qed.

(** X4.  The full extraction does not raise when the request fails the
    way [get_data] recovers from: if the request raises a
    [RequestException], answers with an error status, or its body is not a
    JSON object with the field [Stops], and [json_normalize] refuses
    [None], then the extraction returns [None] and has printed two lines,
    the one of [get_data] and the one of [build_table]. *)
Theorem extraccion_full_failed_fetch
    (requests_get : string → option (list (string * string))
                    → option (list (string * string)) → PyExc + Response)
    (json_normalize : Value → PyExc + DataFrame) (api_key : string)
    (s : Session) (e0 : PyExc) :
  (∃ e, requests_get (base_url ++ "/" ++ endpointFull)%string None
          (headers api_key) = inl e
        ∧ is_RequestException e = true)
  ∨ (∃ response,
       requests_get (base_url ++ "/" ++ endpointFull)%string None
         (headers api_key) = inr response
       ∧ ((400 ≤ status_code response < 600)%Z
          ∨ body_json response = None
          ∨ ∃ data e, body_json response = Some data
                      ∧ subscript data "Stops" = inl e)) →
  json_normalize VNone = inl e0 →
  ∃ line,
    extraccion_full requests_get json_normalize api_key s
    = (inr None, {| frames := frames s;
                    stdout := stdout s ++ [line; unexpected_data] |}).
Proof.
  intros Hfetch Hnone.
  assert (∃ line, get_data requests_get base_url endpointFull "Stops" None
                    (headers api_key) s
                  = (inr VNone, {| frames := frames s;
                                   stdout := stdout s ++ [line] |}))
    as (line & Hget).
  { rewrite get_data_computes.
    destruct Hfetch as [(e & -> & He)|(response & -> & Hbad)].
    { rewrite He. by eexists. }
    destruct (decide (400 ≤ status_code response < 600)%Z) as [Herr|Hok].
    { destruct (raise_for_status_error response Herr) as (msg & ->).
      by eexists. }
    rewrite (raise_for_status_ok response Hok).
    destruct Hbad as [?|[->|(data & e & -> & ->)]]; [done|by eexists..]. }
  exists line. unfold extraccion_full. rewrite (bind_inr _ _ _ _ _ Hget).
  unfold build_table, try_except, bind, lift. rewrite Hnone. simpl.
  by rewrite <- app_assoc.
Qed.

(** ** The stamp and the records *)

Lemma setitem_scalar_prefix df name value :
  columns df `prefix_of` columns (setitem_scalar df name value).
Proof.
  simpl. case_bool_decide; [done|]. by apply prefix_app_r.
Qed.

Lemma setitem_scalar_columns df name value c :
  c ∈ columns (setitem_scalar df name value) → c ∈ columns df ∨ c = name.
Proof.
  simpl. case_bool_decide; [by left|].
  intros [?|Hc%list_elem_of_singleton]%elem_of_app; auto.
Qed.

(** X5.  [build_table_incremental] keeps the records as pandas built them:
    the frame it returns has the same number of rows in the same order,
    its labels start with the labels of the records and add nothing but the
    two stamp labels, and in every row every cell other than the two
    stamps is the cell of the record. *)
Theorem build_table_incremental_keeps_records
    (pd_DataFrame : Value → PyExc + DataFrame) (json_data : Value)
    (clock : Clock) (df0 : DataFrame) :
  pd_DataFrame json_data = inr df0 →
  ∃ df clock',
    build_table_incremental pd_DataFrame json_data clock = (inr df, clock')
    ∧ columns df0 `prefix_of` columns df
    ∧ (∀ c, c ∈ columns df →
            c ∈ columns df0 ∨ c = "fecha_consulta" ∨ c = "hora_consulta")
    ∧ length (rows df) = length (rows df0)
    ∧ ∀ i r0, rows df0 !! i = Some r0 →
        ∃ r, rows df !! i = Some r
           ∧ ∀ c, c ≠ "fecha_consulta" → c ≠ "hora_consulta" →
                  cell r c = cell r0 c.
Proof.
  intros Hdf.
  unfold build_table_incremental, bind, lift, datetime_now, ret. rewrite Hdf.
  eexists _, _. split; [reflexivity|].
  set (t := readings clock (reads clock)).
  set (df1 := setitem_scalar df0 "fecha_consulta" (datetime_date t)).
  split.
  { etrans; apply setitem_scalar_prefix. }
  split.
  { intros c Hc. apply setitem_scalar_columns in Hc as [Hc| ->]; [|auto].
    apply setitem_scalar_columns in Hc as [Hc| ->]; auto. }
  subst df1. cbn [setitem_scalar rows].
  split; [by rewrite !length_fmap|].
  intros i r0 Hi. eexists. split.
  { rewrite !list_lookup_fmap, Hi. reflexivity. }
  intros c Hf Hh. by rewrite !cell_insert_ne by done.
Qed.

(** ** What the explode keeps *)

Lemma bind_length_le {A B} (f : A → list B) (l : list A) :
  (∀ x, f x ≠ []) → (length l ≤ length (l ≫= f))%nat.
Proof.
  intros Hf. induction l as [|x l IH]; [done|].
  rewrite bind_cons, length_app. simpl.
  specialize (Hf x). destruct (f x); [done|]. simpl. lia.
Qed.

(** The loop, when it ends with a frame: same labels, every name asked for
    is a label, and the rows correspond outside the exploded columns. *)
Lemma explode_loop_rows exp : ∀ df0 df',
  (explode_loop df0 exp).2 = inr df' →
  columns df' = columns df0
  ∧ (∀ c, c ∈ exp → c ∈ columns df0)
  ∧ (length (rows df0) ≤ length (rows df'))%nat
  ∧ (∀ r, r ∈ rows df0 →
       ∃ r', r' ∈ rows df' ∧ ∀ c, c ∉ exp → cell r' c = cell r c)
  ∧ (∀ r', r' ∈ rows df' →
       ∃ r, r ∈ rows df0 ∧ ∀ c, c ∉ exp → cell r' c = cell r c).
Proof.
  induction exp as [|col rest IH]; intros df0 df' Hloop.
  { simpl in Hloop. injection Hloop as <-.
    split; [done|]. split; [by intros c ?%elem_of_nil|]. split; [done|].
    split; intros r Hr; by exists r. }
  simpl in Hloop.
  destruct (getitem_label df0 col) as [e|sel] eqn:Hlab; [done|].
  assert (col ∈ columns df0) as Hcol.
  { destruct (decide (col ∈ columns df0)) as [|Hn]; [done|].
    by rewrite getitem_label_missing in Hlab. }
  destruct (apply_isinstance_list_all sel).
  - destruct (DataFrame_explode df0 col) as [e|df1] eqn:Hex; [done|].
    apply DataFrame_explode_inr in Hex as (_ & _ & ->).
    apply IH in Hloop as (Hcols & Hin & Hlen & Hfwd & Hbwd). simpl in *.
    split; [done|]. split.
    { intros c [->|Hc]%elem_of_cons; auto. }
    split.
    { etrans; [|exact Hlen]. apply bind_length_le, exploded_rows_nonempty. }
    split.
    + intros r Hr.
      destruct (exploded_rows col r) as [|r1 l] eqn:E.
      { by apply exploded_rows_nonempty in E. }
      destruct (Hfwd r1) as (r' & Hr' & Hcells).
      { apply list_elem_of_bind. exists r. split; [|done]. rewrite E. left. }
      exists r'. split; [done|]. intros c Hc.
      rewrite Hcells by (intros ?; apply Hc; by right).
      apply (exploded_rows_cell col r); [rewrite E; left|].
      intros ->. apply Hc. left.
    + intros r' Hr'. destruct (Hbwd r' Hr') as (r1 & Hr1 & Hcells).
      apply list_elem_of_bind in Hr1 as (r & Hr1 & Hr).
      exists r. split; [done|]. intros c Hc.
      rewrite Hcells by (intros ?; apply Hc; by right).
      apply (exploded_rows_cell col r); [done|].
      intros ->. apply Hc. left.
  - simpl in Hloop. apply IH in Hloop as (Hcols & Hin & Hlen & Hfwd & Hbwd).
    split; [done|]. split.
    { intros c [->|Hc]%elem_of_cons; auto. }
    split; [done|]. split.
    + intros r Hr. destruct (Hfwd r Hr) as (r' & Hr' & Hcells).
      exists r'. split; [done|]. intros c Hc. apply Hcells.
      intros ?. apply Hc. by right.
    + intros r' Hr'. destruct (Hbwd r' Hr') as (r & Hr & Hcells).
      exists r. split; [done|]. intros c Hc. apply Hcells.
      intros ?. apply Hc. by right.
Qed.

Lemma explode_outcome_Some df sel exp df' :
  (explode_outcome df sel exp).2 = Some df' →
  ∃ df0, getitem_columns df sel = inr df0
       ∧ (explode_loop df0 exp).2 = inr df'.
Proof.
  unfold explode_outcome.
  destruct (getitem_columns df sel) as [e|df0]; [done|].
  destruct ((explode_loop df0 exp).2) as [e|df1] eqn:E; [done|].
  intros [= <-]. by exists df0.
Qed.

(** X6.  Whenever [explode_columns] returns a frame, the labels of the
    frame are the labels of the selection [df_origin[cols_to_select]]:
    each is a selected name, each selected name is a label, and every name
    of [cols_to_explode] is among the selected names.  A column can only be
    exploded if it is selected too. *)
Theorem explode_columns_result_labels (s : Session) (df_origin : nat)
    (df result : DataFrame) (cols_to_select cols_to_explode : list string) :
  frames s !! df_origin = Some df →
  returns_frame s df_origin cols_to_select cols_to_explode result →
  (∃ df0, getitem_columns df cols_to_select = inr df0
          ∧ columns result = columns df0)
  ∧ (∀ c, c ∈ columns result ↔ c ∈ cols_to_select)
  ∧ (∀ c, c ∈ cols_to_select → c ∈ columns df)
  ∧ (∀ c, c ∈ cols_to_explode → c ∈ cols_to_select).
Proof.
  intros Hid Hret.
  apply (returns_frame_outcome _ _ df) in Hret; [|done].
  apply explode_outcome_Some in Hret as (df0 & Hsel & Hloop).
  apply explode_loop_rows in Hloop as (Hcols & Hin & _).
  pose proof (getitem_columns_inr _ _ _ Hsel) as (Hall & Hlab & _).
  split; [by exists df0|]. split; [by intros c; rewrite Hcols|].
  split; [done|]. intros c Hc. by apply Hlab, Hin.
Qed.

(** X7.  Whenever [explode_columns] returns a frame, no source row is lost
    and no row is made up: the frame has at least as many rows as the
    source; every source row has a row in the frame with the same cells in
    the selected columns that are not exploded; and every row of the frame
    has such a source row. *)
Theorem explode_columns_keeps_rows (s : Session) (df_origin : nat)
    (df result : DataFrame) (cols_to_select cols_to_explode : list string) :
  frames s !! df_origin = Some df →
  returns_frame s df_origin cols_to_select cols_to_explode result →
  (length (rows df) ≤ length (rows result))%nat
  ∧ (∀ r, r ∈ rows df →
       ∃ r', r' ∈ rows result
           ∧ ∀ c, c ∈ cols_to_select → c ∉ cols_to_explode →
                  cell r' c = cell r c)
  ∧ (∀ r', r' ∈ rows result →
       ∃ r, r ∈ rows df
          ∧ ∀ c, c ∈ cols_to_select → c ∉ cols_to_explode →
                 cell r' c = cell r c).
Proof.
  intros Hid Hret.
  apply (returns_frame_outcome _ _ df) in Hret; [|done].
  apply explode_outcome_Some in Hret as (df0 & Hsel & Hloop).
  apply explode_loop_rows in Hloop as (_ & _ & Hlen & Hfwd & Hbwd).
  apply getitem_columns_inr in Hsel as (_ & _ & Hrows).
  rewrite Hrows in Hlen, Hfwd, Hbwd. rewrite length_fmap in Hlen.
  split; [done|]. split.
  - intros r Hr.
    destruct (Hfwd (restrict cols_to_select r)) as (r' & Hr' & Hcells).
    { by apply list_elem_of_fmap_2. }
    exists r'. split; [done|]. intros c Hc Hn.
    by rewrite Hcells, cell_restrict.
  - intros r' Hr'. destruct (Hbwd r' Hr') as (r1 & Hr1 & Hcells).
    apply list_elem_of_fmap in Hr1 as (r & -> & Hr).
    exists r. split; [done|]. intros c Hc Hn.
    by rewrite Hcells, cell_restrict.
Qed.

(** X8.  On a frame with no row the explode has nothing to refuse: with
    unique labels and every name present, [explode_columns] returns the
    selected columns with no row, and prints no warning, although no cell
    of the columns to explode is a list. *)
Theorem explode_columns_no_rows (s : Session) (df_origin : nat)
    (df : DataFrame) (cols_to_select cols_to_explode : list string) :
  frames s !! df_origin = Some df →
  rows df = [] →
  NoDup (columns df) →
  NoDup cols_to_select →
  (∀ c, c ∈ cols_to_select → c ∈ columns df) →
  (∀ c, c ∈ cols_to_explode → c ∈ cols_to_select) →
  ∃ id s', explode_columns df_origin cols_to_select cols_to_explode s
             = (inr (Some id), s')
         ∧ frames s' !! id = Some {| columns := cols_to_select; rows := [] |}
         ∧ stdout s' = stdout s.
Proof.
  intros Hid Hrows Hnd Hsel Hall Hexp.
  assert (explode_loop {| columns := cols_to_select; rows := [] |}
            cols_to_explode
          = ([], inr {| columns := cols_to_select; rows := [] |})) as Hloop.
  { clear Hid Hall. induction cols_to_explode as [|col rest IH]; [done|].
    simpl. rewrite getitem_label_unique by (try done; apply Hexp; left).
    simpl. rewrite DataFrame_explode_unique by (try done; apply Hexp; left).
    simpl. apply IH. intros c Hc. apply Hexp. by right. }
  destruct (explode_columns_returns s df_origin df cols_to_select
              cols_to_explode [] {| columns := cols_to_select; rows := [] |})
    as (id & s' & Hrun & Hlook & _ & Hout); [done| |].
  { unfold explode_outcome. rewrite getitem_columns_unique by done.
    rewrite Hrows. simpl. by rewrite Hloop. }
  exists id, s'. by rewrite app_nil_r in Hout.
Qed.

(** X9.  With no column to explode, [explode_columns] is the selection:
    it returns a new frame object that holds [df_origin[cols_to_select]],
    and prints nothing. *)
Theorem explode_columns_selects (s : Session) (df_origin : nat)
    (df df0 : DataFrame) (cols_to_select : list string) :
  frames s !! df_origin = Some df →
  getitem_columns df cols_to_select = inr df0 →
  ∃ id s', explode_columns df_origin cols_to_select [] s = (inr (Some id), s')
         ∧ frames s' !! id = Some df0
         ∧ id ≠ df_origin
         ∧ frames s' !! df_origin = Some df
         ∧ stdout s' = stdout s.
Proof.
  intros Hid Hsel.
  destruct (explode_columns_computes s df_origin df cols_to_select [] Hid)
    as (r & s' & Hrun & Hsub & Hout & Hres).
  unfold explode_outcome in Hout, Hres. rewrite Hsel in Hout, Hres.
  simpl in Hout, Hres. destruct Hres as (id & -> & Hlook & Hnew).
  exists id, s'. split; [done|]. split; [done|].
  split; [congruence|]. split; [by eapply lookup_weaken|].
  by rewrite app_nil_r in Hout.
Qed.

(** ** More on the upsert writer *)

(** The two outcomes of the upsert on a location that holds a table. *)
Lemma upsert_existing_cases (lake : Lake) t new_data data_path predicate
    partition_cols :
  lake !! data_path = Some t →
  (∃ e, save_new_data_as_delta lake_client new_data data_path predicate
          partition_cols lake = (inl e, lake))
  ∨ (NoDup (columns new_data)
     ∧ predicate_resolves "source" "target" (columns new_data) (schema t)
         predicate = true
     ∧ save_new_data_as_delta lake_client new_data data_path predicate
         partition_cols lake
       = (inr tt,
          <[data_path :=
              {| schema := schema t;
                 partition_columns := partition_columns t;
                 data := data t
                   ++ (inserted_row (columns new_data) (schema t)
                       <$> filter (λ r, matched "source" "target" predicate
                                          (data t) r = false)
                             (restrict (columns new_data)
                                <$> rows new_data)) |}]>
            lake)).
Proof.
  intros Ht. rewrite (upsert_existing lake t) by done.
  unfold Table_from_pandas. case_bool_decide as Hnd; [|left; by eexists].
  unfold lake_execute. cbn [merge when_not_matched_insert_all
    merge_table merge_source merge_source_alias merge_target_alias
    merge_predicate not_matched_insert_all table_uri column_names].
  rewrite Ht.
  destruct (predicate_resolves "source" "target" (columns new_data)
              (schema t) predicate); cbn [negb]; [|left; by eexists].
  right. done.
Qed.

Lemma lake_write_other (lake : Lake) path df mode partition_by other :
  other ≠ path →
  (lake_write_deltalake path df mode partition_by lake).2 !! other
  = lake !! other.
Proof.
  intros Hne. unfold lake_write_deltalake.
  destruct (Table_from_pandas df) as [e|table]; [done|].
  repeat (match goal with
          | |- context [if ?b then _ else _] => destruct b
          | |- context [match lake !! path with _ => _ end] =>
              destruct (lake !! path)
          end; cbn [snd]; try done);
    by rewrite lookup_insert_ne.
Qed.

Lemma lake_write_inl (lake lake' : Lake) path df mode partition_by e :
  lake_write_deltalake path df mode partition_by lake = (inl e, lake') →
  lake' = lake.
Proof.
  unfold lake_write_deltalake.
  destruct (Table_from_pandas df) as [e'|table]; [by intros [= _ <-]|].
  repeat (match goal with
          | |- context [if ?b then _ else _] => destruct b
          | |- context [match lake !! path with _ => _ end] =>
              destruct (lake !! path)
          end; try done; try by intros [= _ <-]).
Qed.

(** X10.  Neither writer touches another location: whatever the batch,
    the mode, the predicate and the outcome, the table at any other
    location is after the call what it was before. *)
Theorem writers_keep_other_locations (lake : Lake) (df : DataFrame)
    (path other : string) (mode : option string) (predicate : SqlExpr)
    (partition_cols : option (list string)) :
  other ≠ path →
  (save_data_as_delta lake_client df path mode partition_cols lake).2
    !! other = lake !! other
  ∧ (save_new_data_as_delta lake_client df path predicate partition_cols
       lake).2 !! other = lake !! other.
Proof.
  intros Hne. split; [by apply lake_write_other|].
  destruct (lake !! path) as [t|] eqn:Ht.
  - destruct (upsert_existing_cases lake t df path predicate partition_cols Ht)
      as [(e & ->)|(_ & _ & ->)]; [done|].
    cbn [snd]. by rewrite lookup_insert_ne.
  - rewrite (upsert_absent lake) by done. by apply lake_write_other.
Qed.


(** X12.  A failed upsert commits nothing: when [save_new_data_as_delta]
    raises, the storage is what it was before the call. *)
Theorem upsert_failure_changes_nothing (lake : Lake)
    (new_data : DataFrame) (data_path : string) (predicate : SqlExpr)
    (partition_cols : option (list string)) (e : PyExc) :
  (save_new_data_as_delta lake_client new_data data_path predicate
     partition_cols lake).1 = inl e →
  (save_new_data_as_delta lake_client new_data data_path predicate
     partition_cols lake).2 = lake.
Proof.
  destruct (lake !! data_path) as [t|] eqn:Ht.
  - by destruct (upsert_existing_cases lake t new_data data_path predicate
                   partition_cols Ht) as [(e' & ->)|(_ & _ & ->)].
  - rewrite (upsert_absent lake) by done.
    destruct (lake_write_deltalake data_path new_data "overwrite"
                partition_cols lake) as [r lake'] eqn:E.
    simpl. intros ->. by eapply lake_write_inl.
Qed.

(** X15.  An upsert of a batch with no row changes nothing on a location
    that holds a table, whether it succeeds or raises. *)
Theorem upsert_empty_batch (lake : Lake) (t : DeltaTableData)
    (new_data : DataFrame) (data_path : string) (predicate : SqlExpr)
    (partition_cols : option (list string)) :
  lake !! data_path = Some t →
  rows new_data = [] →
  (save_new_data_as_delta lake_client new_data data_path predicate
     partition_cols lake).2 = lake.
Proof.
  intros Ht Hrows.
  destruct (upsert_existing_cases lake t new_data data_path predicate
              partition_cols Ht) as [(e & ->)|(_ & _ & ->)]; [done|].
  cbn [snd]. rewrite Hrows. simpl. rewrite app_nil_r.
  apply insert_id. rewrite Ht. by destruct t.
Qed.


(** ** The stamp read back *)

(** X17.  The time stamp tells the seconds apart: two valid readings with
    the same [hora_consulta] string have the same hour, minute and second.
    (The microseconds are not in the stamp.) *)
Theorem strftime_HMS_injective (t1 t2 : datetime) :
  valid_time t1 → valid_time t2 →
  strftime_HMS t1 = strftime_HMS t2 →
  hour t1 = hour t2 ∧ minute t1 = minute t2 ∧ second t1 = second t2.
Proof.
  intros H1 H2 Heq.
  pose proof (strftime_HMS_fields t1 H1) as F1.
  pose proof (strftime_HMS_fields t2 H2) as F2.
  rewrite Heq, F2 in F1. by injection F1 as -> -> ->.
Qed.

(** ** The routes frame and its upsert *)



(** * The further properties on the sample data *)

(** X2 on a request that ends with a [ValueError]. *)
Lemma get_data_raises_other_sample :
  get_data (fails_with (ValueError "bad url")) base_url endpointFull "Stops"
    None None (session_of sample_stops)
  = (inl (ValueError "bad url"), session_of sample_stops).
Proof.
  apply (get_data_raises_other_exceptions (fails_with (ValueError "bad url"))).
  - reflexivity.
  - reflexivity.
Defined.

(** X4 on a 503 answer. *)
Lemma extraccion_full_failed_fetch_sample :
  ∃ line,
    extraccion_full (respond 503 "Service Unavailable" None)
      normalize_records "key" (session_of sample_stops)
    = (inr None,
       {| frames := frames (session_of sample_stops);
          stdout := stdout (session_of sample_stops)
                      ++ [line; unexpected_data] |}).
Proof.
  apply (extraccion_full_failed_fetch
           (respond 503 "Service Unavailable" None) normalize_records "key"
           (session_of sample_stops) (RuntimeError "NotImplementedError")).
  - right. eexists. split; [reflexivity|]. left. simpl. lia.
  - reflexivity.
Defined.

(** X5 on the two vehicle positions. *)
Lemma build_table_incremental_keeps_records_sample :
  ∃ df clock',
    build_table_incremental records_frame two_positions wall_clock
    = (inr df, clock')
    ∧ ["VehicleID"] `prefix_of` columns df
    ∧ (∀ c, c ∈ columns df →
            c ∈ ["VehicleID"] ∨ c = "fecha_consulta" ∨ c = "hora_consulta")
    ∧ length (rows df) = 2
    ∧ ∀ i r0,
        [ ({[ "VehicleID" := VInt 7 ]} : Row); {[ "VehicleID" := VInt 8 ]} ]
          !! i = Some r0 →
        ∃ r, rows df !! i = Some r
           ∧ ∀ c, c ≠ "fecha_consulta" → c ≠ "hora_consulta" →
                  cell r c = cell r0 c.
Proof.
  apply (build_table_incremental_keeps_records records_frame two_positions
           wall_clock
           {| columns := ["VehicleID"];
              rows := [ {[ "VehicleID" := VInt 7 ]};
                        {[ "VehicleID" := VInt 8 ]} ] |}).
  reflexivity.
Defined.

Lemma routed_stops_explode :
  returns_frame (session_of routed_stops) 0 ["StopID"; "Routes"] ["Routes"]
    routed_routes.
Proof.
  apply (returns_frame_outcome _ _ routed_stops); [reflexivity|].
  vm_compute. reflexivity.
Defined.

(** X6 on the stops that all have a route. *)
Lemma explode_columns_result_labels_sample :
  (∃ df0, getitem_columns routed_stops ["StopID"; "Routes"] = inr df0
          ∧ columns routed_routes = columns df0)
  ∧ (∀ c, c ∈ columns routed_routes ↔ c ∈ ["StopID"; "Routes"])
  ∧ (∀ c, c ∈ ["StopID"; "Routes"] → c ∈ columns routed_stops)
  ∧ (∀ c, c ∈ ["Routes"] → c ∈ ["StopID"; "Routes"]).
Proof.
  apply (explode_columns_result_labels (session_of routed_stops) 0
           routed_stops routed_routes ["StopID"; "Routes"] ["Routes"]).
  - reflexivity.
  - exact routed_stops_explode.
Defined.

(** X7 on the stops that all have a route. *)
Lemma explode_columns_keeps_rows_sample :
  (length (rows routed_stops) ≤ length (rows routed_routes))%nat
  ∧ (∀ r, r ∈ rows routed_stops →
       ∃ r', r' ∈ rows routed_routes
           ∧ ∀ c, c ∈ ["StopID"; "Routes"] → c ∉ ["Routes"] →
                  cell r' c = cell r c)
  ∧ (∀ r', r' ∈ rows routed_routes →
       ∃ r, r ∈ rows routed_stops
          ∧ ∀ c, c ∈ ["StopID"; "Routes"] → c ∉ ["Routes"] →
                 cell r' c = cell r c).
Proof.
  apply (explode_columns_keeps_rows (session_of routed_stops) 0
           routed_stops routed_routes ["StopID"; "Routes"] ["Routes"]).
  - reflexivity.
  - exact routed_stops_explode.
Defined.

(** X8 on the stops frame with no stop. *)
Lemma explode_columns_no_rows_sample :
  ∃ id s', explode_columns 0 ["StopID"; "Routes"] ["Routes"]
             (session_of no_stops) = (inr (Some id), s')
         ∧ frames s' !! id
           = Some {| columns := ["StopID"; "Routes"]; rows := [] |}
         ∧ stdout s' = stdout (session_of no_stops).
Proof.
  apply (explode_columns_no_rows (session_of no_stops) 0 no_stops
           ["StopID"; "Routes"] ["Routes"]).
  - reflexivity.
  - reflexivity.
  - by apply (bool_decide_unpack (NoDup _)).
  - by apply (bool_decide_unpack (NoDup _)).
  - intros c Hc. apply elem_of_cons in Hc as [->|Hc].
    + by apply (bool_decide_unpack (_ ∈ _)).
    + apply list_elem_of_singleton in Hc as ->.
      by apply (bool_decide_unpack (_ ∈ _)).
  - intros c Hc. by right.
Defined.

(** X9 on the sample stops. *)
Lemma explode_columns_selects_sample :
  ∃ id s', explode_columns 0 ["StopID"; "Name"] [] (session_of sample_stops)
           = (inr (Some id), s')
         ∧ frames s' !! id
           = Some {| columns := ["StopID"; "Name"];
                     rows := restrict ["StopID"; "Name"]
                               <$> rows sample_stops |}
         ∧ id ≠ 0
         ∧ frames s' !! 0 = Some sample_stops
         ∧ stdout s' = stdout (session_of sample_stops).
Proof.
  apply (explode_columns_selects (session_of sample_stops) 0 sample_stops).
  - reflexivity.
  - reflexivity.
Defined.

(** X10 on the sample table: writing to the bronze location. *)
Lemma writers_keep_other_locations_sample :
  (save_data_as_delta lake_client (batch [key_row (VInt 2) "C"])
     "bronze/stops" None None lake_one).2 !! "silver/stops"
  = lake_one !! "silver/stops"
  ∧ (save_new_data_as_delta lake_client (batch [key_row (VInt 2) "C"])
       "bronze/stops" (key_predicate "id" []) None lake_one).2
      !! "silver/stops"
    = lake_one !! "silver/stops".
Proof.
  apply (writers_keep_other_locations lake_one
           (batch [key_row (VInt 2) "C"]) "bronze/stops" "silver/stops").
  discriminate.
Defined.


(** X12 on the sample table, with a predicate on a column that does not
    exist. *)
Lemma upsert_failure_changes_nothing_sample :
  (save_new_data_as_delta lake_client (batch [key_row (VInt 2) "C"])
     "silver/stops" (key_predicate "StopID" []) None lake_one).2 = lake_one.
Proof.
  apply (upsert_failure_changes_nothing lake_one
           (batch [key_row (VInt 2) "C"]) "silver/stops"
           (key_predicate "StopID" []) None
           (DeltaError "Schema error: No field named in predicate")).
  vm_compute. reflexivity.
Defined.

(** X15 on the sample table. *)
Lemma upsert_empty_batch_sample :
  (save_new_data_as_delta lake_client (batch []) "silver/stops"
     (key_predicate "id" []) None lake_one).2 = lake_one.
Proof.
  apply (upsert_empty_batch lake_one
           {| schema := ["id"; "v"]; partition_columns := [];
              data := [key_row (VInt 1) "A"] |} (batch [])).
  - reflexivity.
  - reflexivity.
Defined.

(** X17 on two readings of the same second. *)
Lemma strftime_HMS_injective_sample :
  hour morning = 9 ∧ minute morning = 5 ∧ second morning = 30.
Proof.
  apply (strftime_HMS_injective morning
           {| year := 2025; month := 1; day := 1;
              hour := 9; minute := 5; second := 30; microsecond := 999 |}).
  - unfold valid_time. simpl. lia.
  - unfold valid_time. simpl. lia.
  - reflexivity.
Defined.



(** * The handler and the statements it covers *)

(** X19.  The [except TableNotFoundError] clause covers every statement
    under [try], not the constructor alone: over any storage, when the
    merge (or any other statement under [try]) raises
    [TableNotFoundError], [save_new_data_as_delta] does the full write in
    mode ['overwrite'], in the state that statement left. *)
Theorem upsert_falls_back_from_any_statement {S : Type}
    (deltalake : DeltaLake S) (new_data : DataFrame) (data_path : string)
    (predicate : SqlExpr) (partition_cols : option (list string))
    (s s' : S) (msg : string) :
  merge_new_data deltalake new_data data_path predicate s
    = (inl (TableNotFoundError msg), s') →
  save_new_data_as_delta deltalake new_data data_path predicate
    partition_cols s
  = write_deltalake deltalake data_path new_data "overwrite" partition_cols s'.
Proof.
  intros Hbody. unfold save_new_data_as_delta.
  by rewrite (try_except_inl _ _ _ _ _ Hbody).
Qed.

(** X19 on a table that vanishes before the merge: the batch replaces
    what the location holds. *)
Lemma upsert_falls_back_from_merge_sample :
  save_new_data_as_delta vanishing_client (batch [key_row (VInt 2) "C"])
    "silver/stops" (key_predicate "id" []) None lake_one
  = (inr tt,
     <["silver/stops" :=
         {| schema := ["id"; "v"]; partition_columns := [];
            data := [key_row (VInt 2) "C"] |}]> lake_one).
Proof.
  rewrite (upsert_falls_back_from_any_statement vanishing_client
             (batch [key_row (VInt 2) "C"]) "silver/stops"
             (key_predicate "id" []) None lake_one lake_one "silver/stops").
  - vm_compute. reflexivity.
  - reflexivity.
Defined.
